(** * SNSoap: the paging query helper over the ServiceNow SOAP API

    A shallow embedding of [src/SNSoap.py] (class [SNSoap], methods
    [__init__], [_client] and the generator [run_query]) together with the
    properties of the paging contract.

    Layout of the development:
    - [Py]       the Python builtins the method relies on ([int] on a
                 string, [str.split], [str.join], list slicing, [set]);
    - [Zeep]     the interface of the remote side (WSDL binding, [getKeys],
                 [getRecords]) as a class, the remote being a stateful
                 oracle the helper has no control over;
    - [SNSoap]   the class itself: the object, the generator as a resumable
                 state machine, and the consumers ([next], a [for] loop);
    - [Mock]     a scripted remote used to run the model on inputs;
    - the properties. *)

From Stdlib Require Import ZArith String Ascii List Lia.
From stdpp Require Import base gmap sets list strings.

Local Open Scope string_scope.
Local Open Scope Z_scope.
Local Open Scope list_scope.

(** ** Exceptions

    The exceptions that can leave [run_query].  [WsdlError] and
    [ServiceError] stand for whatever zeep/requests raise while binding the
    client, respectively while performing a SOAP operation; they carry the
    detail reported by the remote side. *)
Inductive exn : Type :=
| AssertionError
| TypeError
| ValueError
| IndexError
| WsdlError (detail : string)
| ServiceError (detail : string).

(** ** Python builtins *)
Module Py.

(** A Python [str] is held as its UTF-8 encoding: one [ascii] per byte. *)

(** The white space [int] skips around a number once the string is brought
    to ASCII: TAB..CR and the blank (C's [isspace]). *)
Definition is_space (a : ascii) : bool :=
  let n := nat_of_ascii a in
  ((9 <=? n)%nat && (n <=? 13)%nat) || (n =? 32)%nat.

(** The payload of a UTF-8 continuation byte. *)
Definition continuation (a : ascii) : option N :=
  let n := N_of_ascii a in
  if ((128 <=? n) && (n <? 192))%N then Some (n - 128)%N else None.

(** The code points of a string; [None] when the bytes are no UTF-8
    encoding of a [str] (stray or missing continuation bytes, overlong
    forms, surrogates, values beyond U+10FFFF). *)
Fixpoint code_points (s : string) : option (list N) :=
  match s with
  | EmptyString => Some []
  | String a s1 =>
      let n := N_of_ascii a in
      if (n <? 128)%N then cons n <$> code_points s1
      else if (n <? 192)%N then None
      else if (n <? 224)%N then
        match s1 with
        | String b s2 =>
            match continuation b with
            | Some x =>
                let c := ((n - 192) * 64 + x)%N in
                if (c <? 128)%N then None else cons c <$> code_points s2
            | None => None
            end
        | EmptyString => None
        end
      else if (n <? 240)%N then
        match s1 with
        | String b (String c s3) =>
            match continuation b, continuation c with
            | Some x, Some y =>
                let cp := ((n - 224) * 4096 + x * 64 + y)%N in
                if ((cp <? 2048) || ((55296 <=? cp) && (cp <? 57344)))%N
                then None else cons cp <$> code_points s3
            | _, _ => None
            end
        | _ => None
        end
      else if (n <? 248)%N then
        match s1 with
        | String b (String c (String d s4)) =>
            match continuation b, continuation c, continuation d with
            | Some x, Some y, Some z =>
                let cp := ((n - 240) * 262144 + x * 4096 + y * 64 + z)%N in
                if ((cp <? 65536) || (1114111 <? cp))%N
                then None else cons cp <$> code_points s4
            | _, _, _ => None
            end
        | _ => None
        end
      else None
  end.

(** The white space of Unicode 14 beyond ASCII ([str.isspace]): NEL, the
    no-break space, the Ogham space mark, U+2000..U+200A, the line and
    paragraph separators, the narrow no-break, medium mathematical and
    ideographic spaces. *)
Definition unicode_space (c : N) : bool :=
  ((c =? 133) || (c =? 160) || (c =? 5760)
   || ((8192 <=? c) && (c <=? 8202))
   || (c =? 8232) || (c =? 8233) || (c =? 8239) || (c =? 8287)
   || (c =? 12288))%N.

(** The decimal digits of Unicode 14 come in 66 runs of ten, zero to nine;
    these are the code points of the zeros. *)
Definition decimal_zeros : list N :=
  [48; 1632; 1776; 1984; 2406; 2534; 2662; 2790; 2918; 3046; 3174; 3302;
   3430; 3558; 3664; 3792; 3872; 4160; 4240; 6112; 6160; 6470; 6608; 6784;
   6800; 6992; 7088; 7232; 7248; 42528; 43216; 43264; 43472; 43504; 43600;
   44016; 65296; 66720; 68912; 69734; 69872; 69942; 70096; 70384; 70736;
   70864; 71248; 71360; 71472; 71904; 72016; 72784; 73040; 73120; 92768;
   92864; 93008; 120782; 120792; 120802; 120812; 120822; 123200; 123632;
   125264; 130032]%N.

(** The value of a decimal digit ([unicodedata.decimal]). *)
Fixpoint decimal_in (zeros : list N) (c : N) : option N :=
  match zeros with
  | [] => None
  | z :: zeros' =>
      if ((z <=? c) && (c <? z + 10))%N then Some (c - z)%N
      else decimal_in zeros' c
  end.

(** What [int] makes of a character before it parses: those below 127 are
    kept, other white space becomes a blank, other decimal digits their
    ASCII digit, and anything else is an error. *)
Definition to_ascii (c : N) : option ascii :=
  if (c <? 127)%N then Some (ascii_of_N c)
  else if unicode_space c then Some " "%char
  else match decimal_in decimal_zeros c with
       | Some d => Some (ascii_of_N (48 + d))
       | None => None
       end.

Fixpoint to_ascii_all (cs : list N) : option string :=
  match cs with
  | [] => Some EmptyString
  | c :: cs' =>
      match to_ascii c, to_ascii_all cs' with
      | Some a, Some s => Some (String a s)
      | _, _ => None
      end
  end.

Definition transform (s : string) : option string :=
  match code_points s with
  | Some cs => to_ascii_all cs
  | None => None
  end.

Fixpoint lstrip (s : string) : string :=
  match s with
  | String a s' => if is_space a then lstrip s' else s
  | EmptyString => EmptyString
  end.

Fixpoint rstrip (s : string) : string :=
  match s with
  | EmptyString => EmptyString
  | String a s' =>
      match rstrip s' with
      | EmptyString => if is_space a then EmptyString else String a EmptyString
      | r => String a r
      end
  end.

Definition digit_val (a : ascii) : option Z :=
  let n := nat_of_ascii a in
  if ((48 <=? n)%nat && (n <=? 57)%nat) then Some (Z.of_nat n - 48) else None.

(** Decimal digits, single underscores allowed between two digits. *)
Fixpoint digits (acc : Z) (after_digit : bool) (s : string) : option Z :=
  match s with
  | EmptyString => if after_digit then Some acc else None
  | String a s' =>
      match digit_val a with
      | Some d => digits (10 * acc + d) true s'
      | None =>
          if Ascii.eqb a "_" && after_digit
          then digits acc false s'
          else None
      end
  end.

(** The number of decimal digits of a string. *)
Fixpoint count_digits (s : string) : nat :=
  match s with
  | EmptyString => O
  | String a s' =>
      match digit_val a with
      | Some _ => S (count_digits s')
      | None => count_digits s'
      end
  end.

(** [sys.get_int_max_str_digits()], as the interpreter starts. *)
Definition max_str_digits : nat := 4300.

(** [int(s)]: the string is brought to ASCII, surrounding white space is
    dropped, an optional sign is read, then base-10 digits, no more of them
    than the interpreter converts.  Anything else raises [ValueError]. *)
Definition int (s : string) : exn + Z :=
  match transform s with
  | None => inl ValueError
  | Some t =>
      let body := rstrip (lstrip t) in
      let parsed :=
        match body with
        | String "-" ds => Z.opp <$> digits 0 false ds
        | String "+" ds => digits 0 false ds
        | ds => digits 0 false ds
        end in
      match parsed with
      | Some z =>
          if (count_digits body <=? max_str_digits)%nat then inr z
          else inl ValueError
      | None => inl ValueError
      end
  end.

(** [s.split(sep)] for a one-character separator: never an empty list,
    empty fields are kept. *)
Fixpoint split (sep : ascii) (s : string) : list string :=
  match s with
  | EmptyString => [EmptyString]
  | String a s' =>
      if Ascii.eqb a sep then EmptyString :: split sep s'
      else match split sep s' with
           | w :: ws => String a w :: ws
           | [] => [String a EmptyString]
           end
  end.

(** [sep.join(l)] on strings. *)
Fixpoint join_str (sep : string) (l : list string) : string :=
  match l with
  | [] => EmptyString
  | [x] => x
  | x :: l' => x +:+ sep +:+ join_str sep l'
  end.

(** The elements of a Python list that are strings, when all of them are. *)
Fixpoint all_str (l : list (option string)) : option (list string) :=
  match l with
  | [] => Some []
  | Some s :: l' => cons s <$> all_str l'
  | None :: _ => None
  end.

(** [sep.join(l)] on a list of objects: an item that is not a string
    ([None] here) raises [TypeError]. *)
Definition join (sep : string) (l : list (option string)) : exn + string :=
  match all_str l with
  | Some ss => inr (join_str sep ss)
  | None => inl TypeError
  end.

(** Index normalisation of a slice bound: negative bounds count from the
    end, everything is clamped to [0, len]. *)
Definition clamp (len i : Z) : Z :=
  if i <? 0 then Z.max 0 (i + len) else Z.min i len.

(** [l[a:b]] *)
Definition slice {A} (l : list A) (a b : Z) : list A :=
  let n := Z.of_nat (length l) in
  let lo := clamp n a in
  let hi := clamp n b in
  take (Z.to_nat (hi - lo)) (drop (Z.to_nat lo) l).

(** [len(l)] *)
Definition len {A} (l : list A) : Z := Z.of_nat (length l).

(** Iteration order of a [set].  Python does not specify it (it depends
    on hashes and on the history of the table), so the development is
    parametric in it: all that is known of [list(s)] is that it
    enumerates the elements of [s], each once. *)
Class SetOrder := {
  to_list : gset (option string) → list (option string);
  to_list_NoDup : ∀ X, NoDup (to_list X);
  to_list_elem : ∀ X x, x ∈ to_list X ↔ x ∈ X
}.

(** [s.remove(x)]: raises [KeyError] (rendered as [None]) when [x] is not
    a member. *)
Definition set_remove (X : gset (option string)) (x : option string)
  : option (gset (option string)) :=
  if decide (x ∈ X) then Some (X ∖ {[x]}) else None.

End Py.

(** One admissible iteration order: stdpp's [elements]. *)
Definition elements_order : Py.SetOrder.
Proof.
  refine {| Py.to_list := elements |}.
  - intros X. apply NoDup_elements.
  - intros X x. apply elem_of_elements.
Defined.

(** ** The object and the remote side *)

(** [requests.Session()] with its [auth] attribute; the session is a handle,
    whatever the HTTP library keeps behind it (cookies, connections) belongs
    to the remote world below. *)
Record Session : Type := { auth : option (string * string) }.

(** [zeep.transports.Transport(session=...)] *)
Record Transport : Type := { transport_session : Session }.

(** An instance of class [SNSoap]: the three attributes [__init__] sets. *)
Record SNSoap : Type := {
  instance : string;
  session : Session;
  transport : Transport
}.

(** A bound zeep client: the WSDL address and the transport it talks over. *)
Record Client : Type := { wsdl : string; client_transport : Transport }.

(** The [getKeys] response, as far as [run_query] reads it:
    [response['count']] and the list [response['sys_id']]. *)
Record KeysResponse : Type := { count : string; sys_id : list string }.

(** The remote side.  [World] is the state of the network and of the
    ServiceNow instance, [Filter] the keyword arguments of [getKeys]
    (opaque to the helper), [Page] a [getRecords] result (a list of
    [getRecordsResult] objects, opaque too).  Each operation may fail with
    a detail message and may change the world. *)
Class Zeep := {
  World : Type;
  Filter : Type;
  Page : Type;
  CachingClient : string → Transport → World → (string + unit) * World;
  getKeys : Client → Filter → World → (string + KeysResponse) * World;
  getRecords : Client → string → World → (string + Page) * World
}.

Section Model.
Context `{Zp : Zeep} `{SO : Py.SetOrder}.

(** What the helper asks of the remote side, in program order. *)
Inductive Event : Type :=
| EWsdl (url : string) (tr : Transport)
| EGetKeys (c : Client) (kw : Filter)
| EGetRecords (c : Client) (query : string).

(** The SOAP operations ([client.service.*]); binding the client is not
    one of them. *)
Definition is_call (e : Event) : bool :=
  match e with
  | EWsdl _ _ => false
  | EGetKeys _ _ | EGetRecords _ _ => true
  end.

Definition is_getKeys (e : Event) : bool :=
  match e with EGetKeys _ _ => true | _ => false end.

Definition is_getRecords (e : Event) : bool :=
  match e with EGetRecords _ _ => true | _ => false end.

Definition query_of (e : Event) : option string :=
  match e with EGetRecords _ q => Some q | _ => None end.

(** The filter expressions of the [getRecords] calls of a trace. *)
Definition queries (t : list Event) : list string := omap query_of t.

(** The store a pull of the generator runs in: the [SNSoap] object the
    generator was obtained from (it is read through [self] when the body
    runs, not when [run_query] is called) and the remote world. *)
Record Store : Type := { self : SNSoap; world : World }.

(** *** The monad of the method body: store, trace of events, exceptions *)
Definition M (A : Type) : Type := Store → (exn + A) * list Event * Store.

Definition ret {A} (a : A) : M A := λ st, (inr a, [], st).
Definition raise {A} (e : exn) : M A := λ st, (inl e, [], st).
Definition bind {A B} (m : M A) (f : A → M B) : M B :=
  λ st,
    match m st with
    | (inl e, t, st') => (inl e, t, st')
    | (inr a, t, st') =>
        let '(r, t', st'') := f a st' in (r, t ++ t', st'')
    end.

Notation "x <- m ;; k" := (bind m (λ x, k))
  (at level 100, m at next level, right associativity).

(** Lift a pure computation that may raise. *)
Definition lift {A} (r : exn + A) : M A := λ st, (r, [], st).

(** Read an attribute of [self]. *)
Definition get_self : M SNSoap := λ st, (inr (self st), [], st).

(** Run a remote operation: log it, let it act on the world, turn a
    failure into the exception [wrap]. *)
Definition remote {A} (ev : Event) (wrap : string → exn)
    (op : World → (string + A) * World) : M A :=
  λ st,
    let '(r, w') := op (world st) in
    (match r with inl d => inl (wrap d) | inr a => inr a end,
     [ev],
     {| self := self st; world := w' |}).

(** *** The class *)

(** [SNSoap.__init__] *)
Definition __init__ (instance0 username password : string) : SNSoap :=
  let session0 := {| auth := Some (username, password) |} in
  {| instance := instance0;
     session := session0;
     transport := {| transport_session := session0 |} |}.

(** ['https://%s.service-now.com/%s.do?WSDL' % (self.instance, tablename)] *)
Definition wsdl_url (instance0 tablename : string) : string :=
  "https://" +:+ instance0 +:+ ".service-now.com/" +:+ tablename +:+ ".do?WSDL".

(** The client [_client] returns once the WSDL is bound. *)
Definition bound_client (s : SNSoap) (tablename : string) : Client :=
  {| wsdl := wsdl_url (instance s) tablename; client_transport := transport s |}.

(** [SNSoap._client] *)
Definition _client (tablename : string) : M Client :=
  s <- get_self ;;
  let url := wsdl_url (instance s) tablename in
  _ <- remote (EWsdl url (transport s)) WsdlError (CachingClient url (transport s)) ;;
  ret (bound_client s tablename).

(** A generator object of [run_query]: not started yet (it holds the
    arguments of the call), suspended at the [yield] (it holds the locals
    [client], [sys_ids], [start], [page_size]), or finished. *)
Inductive generator : Type :=
| Created (table : string) (query_parms : option Filter)
          (sys_ids : option (list (option string))) (page_size : Z)
| Suspended (client : Client) (sys_ids : list (option string))
            (start page_size : Z)
| Finished.

(** Calling [run_query] only builds the generator object; [page_size] is a
    Python [int], on which [int(page_size)] is the identity. *)
Definition run_query (table : string) (query_parms : option Filter)
    (sys_ids : option (list (option string))) (page_size : Z) : generator :=
  Created table query_parms sys_ids page_size.

(** Lines 64-83: the check of [page_size], the client, and the list of
    identifiers to page through. *)
Definition resolve (table : string) (query_parms : option Filter)
    (sys_ids : option (list (option string))) (page_size : Z)
  : M (Client * list (option string)) :=
  if negb ((1 <=? page_size) && (page_size <=? 250)) then raise AssertionError
  else
    client <- _client table ;;
    match sys_ids with
    | None =>
        match query_parms with
        | None => raise TypeError
        | Some kw =>
            response <- remote (EGetKeys client kw) ServiceError (getKeys client kw) ;;
            n <- lift (Py.int (count response)) ;;
            if n =? 0 then ret (client, [])
            else
              match sys_id response with
              | [] => raise IndexError
              | s0 :: _ => ret (client, Some <$> Py.split "," s0)
              end
        end
    | Some l =>
        let sys_ids1 : gset (option string) := list_to_set l in
        let sys_ids2 :=
          match Py.set_remove sys_ids1 None with
          | Some X => X
          | None => sys_ids1
          end in
        ret (client, Py.to_list sys_ids2)
    end.

(** Lines 87-90: the loop test and, when it holds, the body up to the
    [yield].  [Some (page, g)] is a [yield] of [page] leaving the
    generator suspended as [g]; [None] is the end of the function. *)
Definition paging (client : Client) (sys_ids : list (option string))
    (start page_size : Z) : M (option (Page * generator)) :=
  if start <? Py.len sys_ids then
    let chunk := Py.slice sys_ids start (start + page_size) in
    joined <- lift (Py.join "," chunk) ;;
    let query := "sys_idIN" +:+ joined in
    page <- remote (EGetRecords client query) ServiceError (getRecords client query) ;;
    ret (Some (page, Suspended client sys_ids start page_size))
  else ret None.

(** Running the generator from where it stands to its next [yield]. *)
Definition resume (g : generator) : M (option (Page * generator)) :=
  match g with
  | Created table query_parms sys_ids page_size =>
      r <- resolve table query_parms sys_ids page_size ;;
      paging (fst r) (snd r) 0 page_size
  | Suspended client sys_ids start page_size =>
      paging client sys_ids (start + page_size) page_size
  | Finished => ret None
  end.

(** What [next(g)] gives its caller. *)
Inductive outcome : Type :=
| Yield (page : Page)
| StopIteration
| Raise (e : exn).

(** [next(g)]: an exception or the end of the body finishes the
    generator. *)
Definition next (g : generator) (st : Store)
  : outcome * generator * list Event * Store :=
  match resume g st with
  | (inr (Some (page, g')), t, st') => (Yield page, g', t, st')
  | (inr None, t, st') => (StopIteration, Finished, t, st')
  | (inl e, t, st') => (Raise e, Finished, t, st')
  end.

(** [k] successive calls of [next], whatever they give. *)
Fixpoint pulls (k : nat) (g : generator) (st : Store)
  : list outcome * generator * list Event * Store :=
  match k with
  | O => ([], g, [], st)
  | S k' =>
      let '(o, g', t, st') := next g st in
      let '(os, g'', t', st'') := pulls k' g' st' in
      (o :: os, g'', t ++ t', st'')
  end.

(** [for page in g: ...] run for at most [fuel] iterations: the pages
    received, how the loop ended ([None] when the fuel ran out first),
    the trace and the final store. *)
Fixpoint drain (fuel : nat) (g : generator) (st : Store)
  : list Page * option outcome * list Event * Store :=
  match fuel with
  | O => ([], None, [], st)
  | S fuel' =>
      match next g st with
      | (Yield page, g', t, st') =>
          let '(pages, fin, t', st'') := drain fuel' g' st' in
          (page :: pages, fin, t ++ t', st'')
      | (o, _, t, st') => ([], Some o, t, st')
      end
  end.

(** Lines 86-91 on their own: the [while] loop run to its end (for at
    most [fuel] tests of its condition), every page handed over as it is
    produced. *)
Fixpoint run_loop (fuel : nat) (client : Client)
    (sys_ids : list (option string)) (start page_size : Z) (st : Store)
  : list Page * option outcome * list Event * Store :=
  match fuel with
  | O => ([], None, [], st)
  | S fuel' =>
      match paging client sys_ids start page_size st with
      | (inr (Some (page, _)), t, st') =>
          let '(pages, fin, t', st'') :=
            run_loop fuel' client sys_ids (start + page_size) page_size st' in
          (page :: pages, fin, t ++ t', st'')
      | (inr None, t, st') => ([], Some StopIteration, t, st')
      | (inl e, t, st') => ([], Some (Raise e), t, st')
      end
  end.

(** The [getRecords] call made for a chunk of identifiers. *)
Definition fetch_of (client : Client) (chunk : list string) : Event :=
  EGetRecords client ("sys_idIN" +:+ Py.join_str "," chunk).

(** The remote side answers every [getRecords] call. *)
Definition fetch_ok : Prop :=
  ∀ c q w, ∃ page w', getRecords c q w = (inr page, w').

End Model.

(** ** The contract's vocabulary *)

(** Consecutive chunks of at most [p] elements, in order: the partition the
    contract asks for, written on lists without any index. *)
Fixpoint chunks_upto {A} (fuel p : nat) (l : list A) : list (list A) :=
  match fuel, l with
  | S fuel', _ :: _ => take p l :: chunks_upto fuel' p (drop p l)
  | _, _ => []
  end.

Definition chunks {A} (p : nat) (l : list A) : list (list A) :=
  chunks_upto (length l) p l.

(** The number of pages the contract bounds the sequence by. *)
Definition page_count (n p : Z) : Z := (n + p - 1) / p.

(** The error taxonomy of the contract, and where the exceptions of the
    code fall in it; [TypeError] has no place there. *)
Inductive SpecError : Type :=
| InvalidArgumentError
| AuthConfigError
| EndpointError
| RemoteQueryError.

Definition taxonomy (e : exn) : option SpecError :=
  match e with
  | AssertionError => Some InvalidArgumentError
  | WsdlError _ => Some EndpointError
  | ServiceError _ | ValueError | IndexError => Some RemoteQueryError
  | TypeError => None
  end.

(** ** A scripted remote side *)
Module Mock.

(** The world: the scripted answers and the number of pages served. *)
Record script : Type := {
  wsdl_fault : option string;
  keys : string + KeysResponse;
  served : nat
}.

Definition bind_wsdl (url : string) (tr : Transport) (w : script)
  : (string + unit) * script :=
  match wsdl_fault w with
  | Some d => (inl d, w)
  | None => (inr tt, w)
  end.

Definition get_keys (c : Client) (kw : list (string * string)) (w : script)
  : (string + KeysResponse) * script := (keys w, w).

(** A page is rendered by the filter expression it was asked with. *)
Definition get_records (c : Client) (q : string) (w : script)
  : (string + string) * script :=
  (inr q, {| wsdl_fault := wsdl_fault w; keys := keys w; served := S (served w) |}).

Definition zeep : Zeep := {|
  World := script;
  Filter := list (string * string);
  Page := string;
  CachingClient := bind_wsdl;
  getKeys := get_keys;
  getRecords := get_records
|}.

(** A remote side that never fails and answers [getKeys] with [r]. *)
Definition answering (r : KeysResponse) : @World zeep :=
  {| wsdl_fault := None; keys := inr r; served := O |}.

(** The empty filter, and a page seen as the expression it answers. *)
Definition no_filter : @Filter zeep := @nil (string * string).
Definition page (q : string) : @Page zeep := q.

Definition sn : SNSoap := __init__ "dev" "user" "secret".

Definition store (r : KeysResponse) : @Store zeep :=
  {| self := sn; world := answering r |}.

Definition no_keys : KeysResponse := {| count := "0"; sys_id := [] |}.
Definition xy : KeysResponse := {| count := "2"; sys_id := ["x,y"] |}.
Definition aa : KeysResponse := {| count := "2"; sys_id := ["a,a"] |}.

(** The client bound for table [incident]. *)
Definition incident : Client := @bound_client sn "incident".

(** Two-character identifiers [AA], [AB], ..., distinct for distinct
    [n < 3056]. *)
Definition ident (n : nat) : string :=
  String (ascii_of_nat (65 + n / 16)) (String (ascii_of_nat (65 + n mod 16)) "").

Definition idents (n : nat) : list (option string) :=
  (λ i, Some (ident i)) <$> seq 0 n.

End Mock.


(** ** Vocabulary of the further properties *)
Section Vocabulary.
Context `{Zp : Zeep}.

(** The remote side asked for the pages of a list of filter expressions,
    one after the other, up to the first failure: the pages received, the
    detail of the failure if any, the expressions actually sent, and the
    world left behind. *)
Fixpoint serve (c : Client) (qs : list string) (w : World)
  : list Page * option string * list string * World :=
  match qs with
  | [] => ([], None, [], w)
  | q :: qs' =>
      match getRecords c q w with
      | (inl d, w') => ([], Some d, [q], w')
      | (inr page, w') =>
          let '(pages, fault, sent, w'') := serve c qs' w' in
          (page :: pages, fault, q :: sent, w'')
      end
  end.

(** How a consumption ends after [serve]. *)
Definition ending (fault : option string) : outcome :=
  match fault with
  | None => StopIteration
  | Some d => Raise (ServiceError d)
  end.

(** The event is addressed to table [tb] of instance [i], over a transport
    whose session carries the credentials [u], [pw]. *)
Definition through (i u pw tb : string) (e : Event) : Prop :=
  match e with
  | EWsdl url tr =>
      url = wsdl_url i tb ∧ auth (transport_session tr) = Some (u, pw)
  | EGetKeys c _ | EGetRecords c _ =>
      wsdl c = wsdl_url i tb
      ∧ auth (transport_session (client_transport c)) = Some (u, pw)
  end.

(** What the locals of a generator of [run_query table ... page_size] on
    the object [s] look like wherever it stands. *)
Definition well_formed (s : SNSoap) (table : string) (page_size : Z)
    (g : generator) : Prop :=
  match g with
  | Created table' _ _ page_size' => table' = table ∧ page_size' = page_size
  | Suspended c ids start page_size' =>
      page_size' = page_size
      ∧ 1 ≤ page_size ≤ 250
      ∧ c = bound_client s table
      ∧ (None ∉ ids)
      ∧ (∃ j : nat, start = Z.of_nat j * page_size)
      ∧ 0 ≤ start < Py.len ids
  | Finished => True
  end.

End Vocabulary.

(** The string holds no occurrence of the character. *)
Fixpoint free_of (a : ascii) (s : string) : bool :=
  match s with
  | EmptyString => true
  | String b s' => negb (Ascii.eqb b a) && free_of a s'
  end.

(** ** A scripted remote side that can fail *)
Module Faulty.

(** The script: a fault for the binding, the answer of [getKeys], the
    rank of the fetch that fails, and the number of fetches received. *)
Record script : Type := {
  wsdl_fault : option string;
  keys : string + KeysResponse;
  fail_at : option nat;
  received : nat
}.

Definition bind_wsdl (url : string) (tr : Transport) (w : script)
  : (string + unit) * script :=
  match wsdl_fault w with
  | Some d => (inl d, w)
  | None => (inr tt, w)
  end.

Definition get_keys (c : Client) (kw : list (string * string)) (w : script)
  : (string + KeysResponse) * script := (keys w, w).

Definition get_records (c : Client) (q : string) (w : script)
  : (string + string) * script :=
  let w' := {| wsdl_fault := wsdl_fault w; keys := keys w;
               fail_at := fail_at w; received := S (received w) |} in
  if decide (fail_at w = Some (received w)) then (inl "fault", w')
  else (inr q, w').

Definition zeep : Zeep := {|
  World := script;
  Filter := list (string * string);
  Page := string;
  CachingClient := bind_wsdl;
  getKeys := get_keys;
  getRecords := get_records
|}.

Definition sn : SNSoap := __init__ "dev" "user" "secret".

Definition incident : Client := @bound_client sn "incident".

Definition no_filter : @Filter zeep := @nil (string * string).

Definition page (q : string) : @Page zeep := q.

Definition store (b : option string) (k : string + KeysResponse)
    (f : option nat) : @Store zeep :=
  {| self := sn;
     world := ({| wsdl_fault := b; keys := k; fail_at := f; received := O |}
               : @World zeep) |}.

End Faulty.

(** * Properties *)

(** ** The builtins on small inputs *)

Example int_0 : Py.int "0" = inr 0. Proof. reflexivity. Qed.
Example int_2 : Py.int " 2 " = inr 2. Proof. reflexivity. Qed.
Example int_m : Py.int "-1_0" = inr (-10). Proof. reflexivity. Qed.
Example int_bad : Py.int "1__0" = inl ValueError. Proof. reflexivity. Qed.
Example int_bad2 : Py.int "" = inl ValueError. Proof. reflexivity. Qed.

(** [int] on strings that are not plain ASCII numbers: a file separator is
    no white space for it, a no-break space and a line separator are, the
    digits of other scripts count, and more than 4300 digits are refused. *)
Example int_fs :
  Py.int (String (ascii_of_nat 28) "0") = inl ValueError.
Proof. reflexivity. Qed.

Example int_nbsp :
  Py.int (String (ascii_of_nat 194) (String (ascii_of_nat 160) "1")) = inr 1.
Proof. reflexivity. Qed.

Example int_line_separator :
  Py.int (String (ascii_of_nat 226) (String (ascii_of_nat 128)
            (String (ascii_of_nat 168) "7"))) = inr 7.
Proof. reflexivity. Qed.

Example int_arabic_indic :
  Py.int (String (ascii_of_nat 217) (String (ascii_of_nat 161)
            (String (ascii_of_nat 217) (String (ascii_of_nat 160) ""))))
  = inr 10.
Proof. reflexivity. Qed.

Example int_stray_byte :
  Py.int (String (ascii_of_nat 160) "1") = inl ValueError.
Proof. reflexivity. Qed.

Example int_4300_digits :
  Py.int (string_of_list_ascii (repeat "0"%char 4300)) = inr 0.
Proof. vm_compute. reflexivity. Qed.

Example int_4301_digits :
  Py.int (string_of_list_ascii (repeat "0"%char 4301)) = inl ValueError.
Proof. vm_compute. reflexivity. Qed.
Example split_xy : Py.split "," "x,y" = ["x"; "y"]. Proof. reflexivity. Qed.
Example split_e : Py.split "," "a,,b," = ["a"; ""; "b"; ""]. Proof. reflexivity. Qed.
Example slice_1 : Py.slice [1;2;3;4;5]%nat 3 6 = [4;5]%nat. Proof. reflexivity. Qed.
Example slice_2 : Py.slice [1;2;3;4;5]%nat (-2) 100 = [4;5]%nat. Proof. reflexivity. Qed.

(** ** Facts about the builtins *)

Lemma all_str_Some (ss : list string) : Py.all_str (Some <$> ss) = Some ss.
Proof.
  induction ss as [|s ss IH]; [done|].
  rewrite fmap_cons. cbn [Py.all_str]. by rewrite IH.
Qed.

Lemma all_str_inv (l : list (option string)) (ss : list string) :
  Py.all_str l = Some ss → l = Some <$> ss.
Proof.
  revert ss. induction l as [|[s|] l IH]; intros ss; simpl.
  - by intros [= <-].
  - destruct (Py.all_str l) as [ss'|] eqn:E; simpl; [|done].
    intros [= <-]. rewrite fmap_cons. f_equal. by apply IH.
  - done.
Qed.

Lemma join_Some (sep : string) (ss : list string) :
  Py.join sep (Some <$> ss) = inr (Py.join_str sep ss).
Proof. unfold Py.join. by rewrite all_str_Some. Qed.

Lemma slice_take_drop {A} (l : list A) (a p : Z) :
  0 ≤ a → 0 ≤ p →
  Py.slice l a (a + p) = take (Z.to_nat p) (drop (Z.to_nat a) l).
Proof.
  intros Ha Hp. unfold Py.slice, Py.clamp.
  destruct (Z.ltb_spec a 0) as [?|_]; [lia|].
  destruct (Z.ltb_spec (a + p) 0) as [?|_]; [lia|].
  set (n := Z.of_nat (length l)).
  destruct (Z_le_gt_dec n a) as [Hge|Hlt].
  - rewrite (Z.min_r a n), (Z.min_r (a + p) n) by lia.
    rewrite (drop_ge l (Z.to_nat n)), (drop_ge l (Z.to_nat a)) by lia.
    by rewrite !take_nil.
  - rewrite (Z.min_l a n) by lia.
    destruct (Z_le_gt_dec (a + p) n) as [Hin|Hout].
    + rewrite Z.min_l by lia. do 2 f_equal. lia.
    + rewrite Z.min_r by lia.
      rewrite !take_ge; [done| |]; rewrite length_drop; lia.
Qed.

Lemma split_nonempty (sep : ascii) (s : string) : Py.split sep s ≠ [].
Proof.
  destruct s as [|a s]; simpl; [done|].
  destruct (Ascii.eqb a sep); [done|]. by destruct (Py.split sep s).
Qed.

(** Joining what [split] produced gives the string back: nothing is
    quoted or escaped on the way. *)
Lemma join_split (sep : ascii) (s : string) :
  Py.join_str (String sep "") (Py.split sep s) = s.
Proof.
  induction s as [|a s IH]; simpl; [done|].
  destruct (Ascii.eqb_spec a sep) as [->|Hne].
  - pose proof (split_nonempty sep s) as Hs.
    destruct (Py.split sep s) as [|w ws]; [done|].
    simpl in *. by rewrite IH.
  - pose proof (split_nonempty sep s) as Hs.
    destruct (Py.split sep s) as [|w ws]; [done|].
    destruct ws as [|w' ws]; simpl in *; by rewrite <- IH.
Qed.

(** ** Facts about the partition *)

Lemma chunks_upto_enough {A} (p : nat) (l : list A) (f : nat) :
  (0 < p)%nat → (length l ≤ f)%nat → chunks_upto f p l = chunks p l.
Proof.
  intros Hp. unfold chunks.
  remember (length l) as n eqn:Hn.
  revert l Hn f. induction n as [n IH] using lt_wf_ind. intros l Hn f Hf.
  destruct l as [|x l]; [by destruct f; subst|].
  simpl in Hn. destruct f as [|f]; [lia|]. destruct n as [|n]; [done|].
  cbn [chunks_upto]. f_equal.
  assert (Hd : (length (drop p (x :: l)) ≤ n)%nat).
  { rewrite length_drop. simpl. lia. }
  rewrite (IH (length (drop p (x :: l))) ltac:(lia) _ eq_refl f ltac:(lia)).
  by rewrite (IH (length (drop p (x :: l))) ltac:(lia) _ eq_refl n ltac:(lia)).
Qed.

Lemma chunks_nil {A} (p : nat) : chunks p (@nil A) = [].
Proof. done. Qed.

Lemma chunks_cons {A} (p : nat) (l : list A) :
  (0 < p)%nat → l ≠ [] → chunks p l = take p l :: chunks p (drop p l).
Proof.
  intros Hp Hl. destruct l as [|x l]; [done|].
  unfold chunks at 1. cbn [length chunks_upto]. f_equal.
  apply chunks_upto_enough; [done|]. rewrite length_drop. simpl. lia.
Qed.

(** Induction along the partition: a property of all lists follows from its
    step from [drop p l] to a non-empty [l]. *)
Lemma chunks_ind {A} (p : nat) (P : list A → Prop) :
  (0 < p)%nat → P [] → (∀ l, l ≠ [] → P (drop p l) → P l) → ∀ l, P l.
Proof.
  intros Hp H0 Hstep l.
  remember (length l) as n eqn:Hn. revert l Hn.
  induction n as [n IH] using lt_wf_ind. intros l Hn.
  destruct l as [|x l]; [done|].
  apply Hstep; [done|].
  apply (IH (length (drop p (x :: l)))); [|done].
  rewrite length_drop. simpl in *. lia.
Qed.

Lemma concat_chunks {A} (p : nat) (l : list A) :
  (0 < p)%nat → concat (chunks p l) = l.
Proof.
  intros Hp. pattern l. apply (chunks_ind p); [done|done|].
  clear l. intros l Hl IH.
  rewrite chunks_cons by done. simpl. rewrite IH. apply take_drop.
Qed.

Lemma chunks_sizes {A} (p : nat) (l : list A) :
  (0 < p)%nat → Forall (λ ch, (0 < length ch ≤ p)%nat) (chunks p l).
Proof.
  intros Hp. pattern l. apply (chunks_ind p); [done|by constructor|].
  clear l. intros l Hl IH.
  rewrite chunks_cons by done. constructor; [|done].
  rewrite length_take. destruct l; [done|]. simpl. lia.
Qed.

Lemma length_chunks {A} (p : nat) (l : list A) :
  (0 < p)%nat →
  Z.of_nat (length (chunks p l)) = page_count (Z.of_nat (length l)) (Z.of_nat p).
Proof.
  intros Hp. unfold page_count.
  pattern l. apply (chunks_ind p); [done| |]; clear l.
  - simpl. symmetry. apply Z.div_small. lia.
  - intros l Hl IH. rewrite chunks_cons by done. cbn [length]. rewrite Nat2Z.inj_succ, IH.
    rewrite length_drop.
    assert (0 < length l)%nat by (destruct l; [done|simpl; lia]).
    destruct (le_lt_dec p (length l)) as [Hle|Hlt].
    + replace (Z.of_nat (length l) + Z.of_nat p - 1)
        with ((Z.of_nat (length l - p) + Z.of_nat p - 1) + 1 * Z.of_nat p) by lia.
      rewrite Z.div_add by lia. lia.
    + replace (length l - p)%nat with 0%nat by lia.
      rewrite (Z.div_small (Z.of_nat 0 + _ - 1)) by lia.
      change (Z.succ 0) with 1.
      apply (Z.div_unique _ _ 1 (Z.of_nat (length l) - 1)); lia.
Qed.

(** All chunks are full, except a shorter last one when [p] does not divide
    the length. *)
Lemma chunks_lengths {A} (p : nat) (l : list A) :
  (0 < p)%nat →
  length <$> chunks p l =
    replicate (length l / p) p ++
    (if (length l mod p =? 0)%nat then [] else [(length l mod p)%nat]).
Proof.
  intros Hp. pattern l. apply (chunks_ind p); [done| |]; clear l.
  - simpl. rewrite Nat.Div0.div_0_l, Nat.Div0.mod_0_l. done.
  - intros l Hl IH. rewrite chunks_cons by done. rewrite fmap_cons, IH, length_take, length_drop.
    assert (0 < length l)%nat by (destruct l; [done|simpl; lia]).
    destruct (le_lt_dec p (length l)) as [Hle|Hlt].
    + assert (E : length l = ((length l - p) + 1 * p)%nat) by lia.
      assert (Hd : (length l / p = (length l - p) / p + 1)%nat).
      { rewrite E at 1. apply Nat.div_add. lia. }
      assert (Hm : (length l mod p = (length l - p) mod p)%nat).
      { rewrite E at 1. apply Nat.Div0.mod_add. }
      rewrite Nat.min_l, Hd, Hm, Nat.add_1_r by done. done.
    + rewrite Nat.min_r by lia.
      replace (length l - p)%nat with 0%nat by lia.
      rewrite Nat.Div0.div_0_l, Nat.Div0.mod_0_l.
      rewrite Nat.div_small, Nat.mod_small by lia. simpl.
      destruct (Nat.eqb_spec (length l) 0); [lia|done].
Qed.

(** ** The paging loop *)
Section Loop.
Context `{Zp : Zeep} `{SO : Py.SetOrder}.

Lemma paging_done (c : Client) (ids : list (option string)) (start p : Z) (st : Store) :
  Py.len ids ≤ start → paging c ids start p st = (inr None, [], st).
Proof.
  intros H. unfold paging.
  destruct (Z.ltb_spec start (Py.len ids)) as [?|_]; [lia|done].
Qed.

(** One turn of the loop on a list of strings: the chunk is cut by
    [take]/[drop], joined and fetched. *)
Lemma paging_fetch (c : Client) (ss : list string) (start p : Z) (st : Store) :
  0 ≤ start < Z.of_nat (length ss) → 0 ≤ p →
  paging c (Some <$> ss) start p st =
    let ev := fetch_of c (take (Z.to_nat p) (drop (Z.to_nat start) ss)) in
    let st' w := {| self := self st; world := w |} in
    match getRecords c ("sys_idIN" +:+ Py.join_str ","
                          (take (Z.to_nat p) (drop (Z.to_nat start) ss)))
                     (world st) with
    | (inl d, w) => (inl (ServiceError d), [ev], st' w)
    | (inr page, w) =>
        (inr (Some (page, Suspended c (Some <$> ss) start p)), [ev], st' w)
    end.
Proof.
  intros Hs Hp. unfold paging, Py.len. rewrite length_fmap.
  destruct (Z.ltb_spec start (Z.of_nat (length ss))) as [_|?]; [|lia].
  rewrite slice_take_drop by lia.
  rewrite <- fmap_drop, <- fmap_take.
  unfold bind, lift, remote, ret, fetch_of. rewrite join_Some.
  destruct (getRecords _ _ _) as [[d|page] w]; done.
Qed.

(** A [yield] leaves the generator suspended with the locals of that turn. *)
Lemma paging_yield (c : Client) (ids : list (option string)) (start p : Z)
    (st st' : Store) (page : Page) (g : generator) (t : list Event) :
  paging c ids start p st = (inr (Some (page, g)), t, st') →
  g = Suspended c ids start p.
Proof.
  unfold paging, bind, lift, remote, ret.
  destruct (start <? Py.len ids); [|done].
  destruct (Py.join _ _) as [e|j]; [done|].
  destruct (getRecords _ _ _) as [[d|pg] w]; [done|].
  by intros [= _ <- _ _].
Qed.

(** Whatever the remote side does, a turn issues at most the one fetch,
    and none without handing a page or an exception over. *)
Lemma paging_trace (c : Client) (ids : list (option string)) (start p : Z)
    (st st' : Store) (r : exn + option (Page * generator)) (t : list Event) :
  paging c ids start p st = (r, t, st') →
  self st' = self st ∧
  (t = [] ∨ ∃ q, t = [EGetRecords c q] ∧ r ≠ inr None).
Proof.
  unfold paging, bind, lift, remote, ret.
  destruct (start <? Py.len ids).
  - destruct (Py.join _ _) as [e|j]; [intros [= <- <- <-]; auto|].
    destruct (getRecords _ _ _) as [[d|pg] w]; intros [= <- <- <-];
      (split; [done|right; eexists; split; [reflexivity|done]]).
  - intros [= <- <- <-]. auto.
Qed.

(** Consuming a suspended generator to its end is running the loop from
    the next value of [start]. *)
Lemma drain_Suspended (fuel : nat) (c : Client) (ids : list (option string))
    (start p : Z) (st : Store) :
  drain fuel (Suspended c ids start p) st = run_loop fuel c ids (start + p) p st.
Proof.
  revert start st. induction fuel as [|fuel IH]; intros start st; [done|].
  cbn [drain run_loop]. unfold next. cbn [resume].
  destruct (paging c ids (start + p) p st) as [[[e|[[page g]|]] t] st'] eqn:E;
    [done| |done].
  apply paging_yield in E as ->. by rewrite IH.
Qed.

(** With a remote side that answers, the loop fetches the chunks of the
    rest of the list one after the other and then stops. *)
Lemma run_loop_ok (c : Client) (ss : list string) (p : Z) :
  1 ≤ p → fetch_ok →
  ∀ (fuel : nat) (start : Z) (st : Store),
    0 ≤ start →
    (length (chunks (Z.to_nat p) (drop (Z.to_nat start) ss)) < fuel)%nat →
    ∃ pages st',
      run_loop fuel c (Some <$> ss) start p st =
        (pages, Some StopIteration,
         fetch_of c <$> chunks (Z.to_nat p) (drop (Z.to_nat start) ss), st')
      ∧ length pages = length (chunks (Z.to_nat p) (drop (Z.to_nat start) ss))
      ∧ self st' = self st.
Proof.
  intros Hp Hok. induction fuel as [|fuel IH]; intros start st Hs Hf; [lia|].
  cbn [run_loop].
  destruct (Z_lt_ge_dec start (Z.of_nat (length ss))) as [Hlt|Hge].
  - rewrite paging_fetch by lia. cbn zeta.
    destruct (Hok c ("sys_idIN" +:+ Py.join_str ","
                (take (Z.to_nat p) (drop (Z.to_nat start) ss))) (world st))
      as (page & w & ->).
    assert (Hne : drop (Z.to_nat start) ss ≠ []).
    { intros E. apply (f_equal length) in E. rewrite length_drop in E.
      simpl in E. lia. }
    rewrite chunks_cons in Hf |- * by (done || lia).
    assert (Hdd : drop (Z.to_nat (start + p)) ss =
                  drop (Z.to_nat p) (drop (Z.to_nat start) ss)).
    { rewrite drop_drop. f_equal. lia. }
    rewrite <- Hdd in Hf |- *.
    destruct (IH (start + p) {| self := self st; world := w |})
      as (pages & st' & -> & Hlen & Hself); [lia|simpl in Hf; lia|].
    exists (page :: pages), st'. simpl. rewrite Hlen. done.
  - rewrite paging_done by (unfold Py.len; rewrite length_fmap; lia).
    rewrite drop_ge by lia. exists [], st. done.
Qed.

(** Whatever the remote side does: the fetches issued are, in order, those
    of the first chunks; there are never more pages than chunks; the loop
    has ended once the fuel exceeds the number of chunks; and the object
    is left as it was. *)
Lemma run_loop_any (c : Client) (ss : list string) (p : Z) :
  1 ≤ p →
  ∀ (fuel : nat) (start : Z) (st : Store) pages fin t st',
    0 ≤ start →
    run_loop fuel c (Some <$> ss) start p st = (pages, fin, t, st') →
    let expected := chunks (Z.to_nat p) (drop (Z.to_nat start) ss) in
    t `prefix_of` (fetch_of c <$> expected)
    ∧ (length pages ≤ length expected)%nat
    ∧ (length pages ≤ length t ≤ S (length pages))%nat
    ∧ ((length expected < fuel)%nat → fin ≠ None)
    ∧ (fin = Some StopIteration →
         t = fetch_of c <$> expected ∧ length pages = length expected)
    ∧ self st' = self st.
Proof.
  intros Hp. induction fuel as [|fuel IH]; intros start st pages fin t st' Hs.
  { intros [= <- <- <- <-]. cbn zeta.
    repeat split; try done; try apply prefix_nil; intros; simpl in *; lia. }
  cbn [run_loop].
  destruct (Z_lt_ge_dec start (Z.of_nat (length ss))) as [Hlt|Hge].
  - rewrite paging_fetch by lia. cbn zeta.
    assert (Hne : drop (Z.to_nat start) ss ≠ []).
    { intros E. apply (f_equal length) in E. rewrite length_drop in E.
      simpl in E. lia. }
    rewrite chunks_cons by (done || lia).
    assert (Hdd : drop (Z.to_nat (start + p)) ss =
                  drop (Z.to_nat p) (drop (Z.to_nat start) ss)).
    { rewrite drop_drop. f_equal. lia. }
    rewrite <- Hdd.
    destruct (getRecords _ _ _) as [[d|page] w].
    + intros [= <- <- <- <-]. rewrite fmap_cons.
      repeat split; try done; try apply prefix_cons, prefix_nil;
        intros; simpl in *; lia.
    + destruct (run_loop fuel c (Some <$> ss) (start + p) p _)
        as [[[pages' fin'] t'] st''] eqn:E.
      intros [= <- <- <- <-].
      apply IH in E as (Hpre & Hle & Hlt' & Hfin & Hstop & Hself); [|lia].
      rewrite fmap_cons. split; [by apply prefix_cons|].
      split; [simpl; lia|]. split; [simpl; lia|].
      split; [intros Hf; apply Hfin; simpl in Hf; lia|].
      split; [|done].
      intros Hst. apply Hstop in Hst as [-> Hl]. simpl. by rewrite Hl.
  - rewrite paging_done by (unfold Py.len; rewrite length_fmap; lia).
    rewrite drop_ge by lia.
    intros [= <- <- <- <-].
    repeat split; try done; intros; simpl in *; lia.
Qed.

End Loop.

(** ** Identifier resolution *)
Section Resolve.
Context `{Zp : Zeep} `{SO : Py.SetOrder}.

Lemma strings_of (l : list (option string)) :
  None ∉ l → ∃ ss, l = Some <$> ss.
Proof.
  induction l as [|[s|] l IH]; intros Hn.
  - by exists [].
  - destruct IH as [ss ->]; [set_solver|]. by exists (s :: ss).
  - set_solver.
Qed.

Lemma None_not_Some (ss : list string) : None ∉ (Some <$> ss).
Proof. intros (s & [=] & _)%list_elem_of_fmap. Qed.

(** No fetch among events that are none. *)
Lemma no_fetch_filter (t : list Event) :
  Forall (λ e, is_getRecords e = false) t →
  filter (λ e, is_getRecords e = true) t = [].
Proof.
  induction 1 as [|e t He _ IH]; [done|].
  rewrite filter_cons, IH. case_decide; [congruence|done].
Qed.

(** [set(l)] with [None] removed when it is there. *)
Lemma remove_None (X : gset (option string)) :
  match Py.set_remove X None with Some X' => X' | None => X end = X ∖ {[None]}.
Proof. unfold Py.set_remove. case_decide; set_solver. Qed.

Lemma range_check (p : Z) :
  1 ≤ p ≤ 250 → negb ((1 <=? p) && (p <=? 250)) = false.
Proof. intros H. destruct (Z.leb_spec 1 p), (Z.leb_spec p 250); (done || lia). Qed.

Lemma resolve_assert tb qp ids (p : Z) (st : Store) :
  ¬ (1 ≤ p ≤ 250) → resolve tb qp ids p st = (inl AssertionError, [], st).
Proof.
  intros H. unfold resolve.
  destruct (Z.leb_spec 1 p), (Z.leb_spec p 250); (done || lia).
Qed.

Lemma client_run (tb : string) (st : Store) :
  _client tb st =
    let url := wsdl_url (instance (self st)) tb in
    let tr := transport (self st) in
    match CachingClient url tr (world st) with
    | (inl d, w) => (inl (WsdlError d), [EWsdl url tr], {| self := self st; world := w |})
    | (inr _, w) => (inr (bound_client (self st) tb), [EWsdl url tr],
                     {| self := self st; world := w |})
    end.
Proof.
  unfold _client, bind, get_self, remote, ret. cbn zeta.
  destruct (CachingClient _ _ _) as [[d|u] w]; done.
Qed.

(** Caller-supplied identifiers: the pool is the enumeration of the set of
    the non-[None] ones, and [query_parms] plays no part. *)
Lemma resolve_given tb qp (l : list (option string)) (p : Z) (st : Store) u w :
  1 ≤ p ≤ 250 →
  CachingClient (wsdl_url (instance (self st)) tb) (transport (self st)) (world st)
    = (inr u, w) →
  resolve tb qp (Some l) p st =
    (inr (bound_client (self st) tb, Py.to_list (list_to_set l ∖ {[None]})),
     [EWsdl (wsdl_url (instance (self st)) tb) (transport (self st))],
     {| self := self st; world := w |}).
Proof.
  intros Hp Hw. unfold resolve. rewrite range_check by done.
  unfold bind. rewrite client_run. cbn zeta. rewrite Hw.
  rewrite remove_None. done.
Qed.

(** Identifiers omitted and a filter given: one [getKeys] call, whose
    answer decides the pool. *)
Lemma resolve_lookup tb kw (p : Z) (st : Store) u w1 resp w2 n :
  1 ≤ p ≤ 250 →
  CachingClient (wsdl_url (instance (self st)) tb) (transport (self st)) (world st)
    = (inr u, w1) →
  getKeys (bound_client (self st) tb) kw w1 = (inr resp, w2) →
  Py.int (count resp) = inr n →
  resolve tb (Some kw) None p st =
    (if n =? 0 then inr (bound_client (self st) tb, [])
     else match sys_id resp with
          | [] => inl IndexError
          | s0 :: _ => inr (bound_client (self st) tb, Some <$> Py.split "," s0)
          end,
     [EWsdl (wsdl_url (instance (self st)) tb) (transport (self st));
      EGetKeys (bound_client (self st) tb) kw],
     {| self := self st; world := w2 |}).
Proof.
  intros Hp Hw Hk Hn. unfold resolve. rewrite range_check by done.
  unfold bind. rewrite client_run. cbn zeta. rewrite Hw.
  unfold remote, lift. cbn [world self]. rewrite Hk, Hn.
  destruct (n =? 0); [done|]. destruct (sys_id resp); done.
Qed.

(** Neither identifiers nor filter: the keyword expansion of [None] fails
    once the client is bound, before [getKeys] is called. *)
Lemma resolve_nothing tb (p : Z) (st : Store) u w :
  1 ≤ p ≤ 250 →
  CachingClient (wsdl_url (instance (self st)) tb) (transport (self st)) (world st)
    = (inr u, w) →
  resolve tb None None p st =
    (inl TypeError,
     [EWsdl (wsdl_url (instance (self st)) tb) (transport (self st))],
     {| self := self st; world := w |}).
Proof.
  intros Hp Hw. unfold resolve. rewrite range_check by done.
  unfold bind. rewrite client_run. cbn zeta. rewrite Hw. done.
Qed.

(** A resolution that ended in an exception: nothing to say of a pool. *)
Ltac resolve_raised :=
  intros [= <- <- <-]; repeat split; try done; by repeat constructor.

(** What every resolution satisfies, however it ends. *)
Lemma resolve_inv tb qp ids (p : Z) (st st' : Store) r (t : list Event) :
  resolve tb qp ids p st = (r, t, st') →
  self st' = self st
  ∧ Forall (λ e, is_getRecords e = false) t
  ∧ (∀ c pool, r = inr (c, pool) →
       1 ≤ p ≤ 250 ∧ c = bound_client (self st) tb ∧ None ∉ pool).
Proof.
  destruct (decide (1 ≤ p ≤ 250)) as [Hp|Hp].
  2:{ rewrite resolve_assert by done. by intros [= <- <- <-]. }
  unfold resolve. rewrite range_check by done.
  unfold bind. rewrite client_run. cbn zeta.
  destruct (CachingClient _ _ _) as [[d|u] w].
  { resolve_raised. }
  destruct ids as [l|].
  - rewrite remove_None. unfold ret. intros [= <- <- <-].
    split; [done|]. split; [by repeat constructor|].
    intros c pool [= <- <-]. split; [done|]. split; [done|].
    rewrite Py.to_list_elem. set_solver.
  - destruct qp as [kw|].
    2:{ unfold raise. resolve_raised. }
    unfold remote, lift, ret, raise. cbn [world self].
    destruct (getKeys _ _ _) as [[d|resp] w2].
    { resolve_raised. }
    destruct (Py.int (count resp)) as [e|n].
    { resolve_raised. }
    destruct (n =? 0).
    { intros [= <- <- <-]. split; [done|]. split; [by repeat constructor|].
      intros c pool [= <- <-]. split; [done|]. split; [done|]. set_solver. }
    destruct (sys_id resp) as [|s0 rest].
    { resolve_raised. }
    intros [= <- <- <-]. split; [done|]. split; [by repeat constructor|].
    intros c pool [= <- <-]. split; [done|]. split; [done|].
    apply None_not_Some.
Qed.

(** ** The generator protocol *)

(** Consuming a fresh generator: the resolution, then the loop from 0. *)
Lemma drain_Created (fuel : nat) tb qp ids (p : Z) (st : Store) :
  drain (S fuel) (run_query tb qp ids p) st =
    match resolve tb qp ids p st with
    | (inl e, t, st') => ([], Some (Raise e), t, st')
    | (inr (c, pool), t0, st0) =>
        let '(pages, fin, t, st1) := run_loop (S fuel) c pool 0 p st0 in
        (pages, fin, t0 ++ t, st1)
    end.
Proof.
  unfold run_query. cbn [drain run_loop]. unfold next. cbn [resume].
  unfold bind at 1.
  destruct (resolve tb qp ids p st) as [[[e|[c pool]] t0] st0]; [done|].
  cbn [fst snd].
  destruct (paging c pool 0 p st0) as [[[e|[[page g]|]] t] st1] eqn:E;
    [done| |done].
  apply paging_yield in E as ->. rewrite drain_Suspended.
  destruct (run_loop fuel c pool (0 + p) p st1) as [[[pages fin] t'] st2].
  by rewrite app_assoc.
Qed.

(** A pull issues at most one fetch, none when it reports the end, and
    leaves the object alone. *)
Lemma next_inv (g : generator) (st st' : Store) o g' (t : list Event) :
  next g st = (o, g', t, st') →
  self st' = self st
  ∧ (length (filter (λ e, is_getRecords e = true) t) ≤ 1)%nat
  ∧ (o = StopIteration → filter (λ e, is_getRecords e = true) t = []).
Proof.
  assert (Hpg : ∀ c ids s p st0 r t0 st1,
    paging c ids s p st0 = (r, t0, st1) →
    self st1 = self st0
    ∧ (length (filter (λ e, is_getRecords e = true) t0) ≤ 1)%nat
    ∧ (r = inr None → filter (λ e, is_getRecords e = true) t0 = [])).
  { intros c ids s p st0 r t0 st1 E.
    apply paging_trace in E as [Hs [->|(q & -> & Hr)]]; (split; [done|]);
      split; simpl; (done || lia). }
  unfold next. destruct g as [tb qp ids p|c ids s p|]; cbn [resume].
  - unfold bind.
    destruct (resolve tb qp ids p st) as [[[e|[c pool]] t0] st0] eqn:E.
    + apply resolve_inv in E as (Hs & Hf%no_fetch_filter & _).
      intros [= <- <- <- <-]. rewrite Hf. simpl. split; [done|]. split; [lia|done].
    + apply resolve_inv in E as (Hs & Hf%no_fetch_filter & _). cbn [fst snd].
      destruct (paging c pool 0 p st0) as [[r t1] st1] eqn:E'.
      apply Hpg in E' as (Hs' & Hle & Hr).
      destruct r as [e|[[page g0]|]]; intros [= <- <- <- <-];
        rewrite filter_app, Hf; cbn [app]; (split; [congruence|]);
        (split; [done|]); intros H1; try done.
      by apply Hr.
  - destruct (paging c ids (s + p) p st) as [[r t0] st1] eqn:E'.
    apply Hpg in E' as (Hs' & Hle & Hr).
    destruct r as [e|[[page g0]|]]; intros [= <- <- <- <-];
      (split; [done|]); (split; [done|]); intros H1; try done.
    by apply Hr.
  - unfold ret. intros [= <- <- <- <-]. simpl. split; [done|]. split; [lia|done].
Qed.

End Resolve.

(** ** The contract of [run_query] *)
Section Contract.
Context `{Zp : Zeep} `{SO : Py.SetOrder}.

(** The first pull of a fresh generator, in terms of the resolution. *)
Lemma next_Created_raise tb qp ids (p : Z) (st st' : Store) e t :
  resolve tb qp ids p st = (inl e, t, st') →
  next (run_query tb qp ids p) st = (Raise e, Finished, t, st').
Proof.
  intros E. unfold next, run_query. cbn [resume]. unfold bind. by rewrite E.
Qed.

(** The identifiers looked up, when the resolution went through
    [getKeys]. *)
Lemma resolve_lookup_inv tb qp (p : Z) (st st' : Store) c pool (t : list Event) :
  resolve tb qp None p st = (inr (c, pool), t, st') →
  ∃ kw u w1 resp n,
    qp = Some kw
    ∧ CachingClient (wsdl_url (instance (self st)) tb) (transport (self st))
        (world st) = (inr u, w1)
    ∧ getKeys c kw w1 = (inr resp, world st')
    ∧ Py.int (count resp) = inr n
    ∧ ((n = 0 ∧ pool = [])
       ∨ (n ≠ 0 ∧ ∃ s0 rest,
            sys_id resp = s0 :: rest ∧ pool = Some <$> Py.split "," s0)).
Proof.
  intros E. pose proof E as (_ & _ & Hc)%resolve_inv.
  destruct (Hc c pool eq_refl) as (Hp & -> & _). clear Hc.
  revert E. unfold resolve. rewrite range_check by done.
  unfold bind. rewrite client_run. cbn zeta.
  destruct (CachingClient _ _ _) as [[d|u] w1]; [done|].
  destruct qp as [kw|]; [|done].
  unfold remote, lift, ret, raise. cbn [world self].
  destruct (getKeys _ _ _) as [[d|resp] w2] eqn:Hk; [done|].
  destruct (Py.int (count resp)) as [e|n] eqn:Hn; [done|].
  destruct (Z.eqb_spec n 0) as [->|Hne].
  - intros [= <- <- <-]. exists kw, u, w1, resp, 0. auto 10.
  - destruct (sys_id resp) as [|s0 rest] eqn:Hs; [done|].
    intros [= <- <- <-]. exists kw, u, w1, resp, n.
    do 4 (split; [done|]). right. split; [done|]. by exists s0, rest.
Qed.

(** C2. For every [page_size] outside [1,250] the first pull of the
    sequence fails on the assertion, the contract's
    [InvalidArgumentError], before anything is asked of the remote side:
    the trace is empty, the store untouched, the generator finished. *)
Theorem page_size_rejected tb qp ids (p : Z) (st : Store) :
  ¬ (1 ≤ p ≤ 250) →
  next (run_query tb qp ids p) st = (Raise AssertionError, Finished, [], st)
  ∧ taxonomy AssertionError = Some InvalidArgumentError
  ∧ ∀ fuel, drain (S fuel) (run_query tb qp ids p) st
            = ([], Some (Raise AssertionError), [], st).
Proof.
  intros Hp. split; [|split; [done|]].
  - by apply next_Created_raise, resolve_assert.
  - intros fuel. rewrite drain_Created. by rewrite resolve_assert.
Qed.

(** C3. Identifiers omitted and a [getKeys] answer whose count is zero:
    the sequence is empty, and the trace holds the binding of the client
    and the one lookup, which is the only SOAP call; no [getRecords]. *)
Theorem zero_count_no_pages tb kw (p : Z) (st : Store) u w1 resp w2 :
  1 ≤ p ≤ 250 →
  CachingClient (wsdl_url (instance (self st)) tb) (transport (self st)) (world st)
    = (inr u, w1) →
  getKeys (bound_client (self st) tb) kw w1 = (inr resp, w2) →
  Py.int (count resp) = inr 0 →
  ∃ t,
    (∀ fuel, drain (S fuel) (run_query tb (Some kw) None p) st
             = ([], Some StopIteration, t, {| self := self st; world := w2 |}))
    ∧ filter (λ e, is_call e = true) t = [EGetKeys (bound_client (self st) tb) kw]
    ∧ filter (λ e, is_getRecords e = true) t = [].
Proof.
  intros Hp Hw Hk Hn. eexists. split; [|split].
  - intros fuel. rewrite drain_Created.
    rewrite (resolve_lookup _ _ _ _ _ _ _ _ _ Hp Hw Hk Hn). cbn [Z.eqb].
    cbn [run_loop]. rewrite paging_done by done. by rewrite app_nil_r.
  - done.
  - done.
Qed.

(** C10. Neither filter nor identifiers, a valid [page_size] and a client
    that binds: the first pull raises [TypeError] (the keyword expansion of
    [None]), which the contract's taxonomy does not know; the trace holds
    the binding only, neither [getKeys] nor [getRecords]. *)
Theorem no_filter_no_identifiers tb (p : Z) (st : Store) u w :
  1 ≤ p ≤ 250 →
  CachingClient (wsdl_url (instance (self st)) tb) (transport (self st)) (world st)
    = (inr u, w) →
  ∃ t,
    next (run_query tb None None p) st
      = (Raise TypeError, Finished, t, {| self := self st; world := w |})
    ∧ taxonomy TypeError = None
    ∧ filter (λ e, is_call e = true) t = [].
Proof.
  intros Hp Hw. eexists. split; [|split].
  - apply next_Created_raise. by apply resolve_nothing with u.
  - done.
  - done.
Qed.

(** Whatever [page_size] and the remote side are, the first pull without
    filter and identifiers ends in an exception and no SOAP call. *)
Lemma first_pull_without_arguments tb (p : Z) (st : Store) :
  ∃ e t st',
    next (run_query tb None None p) st = (Raise e, Finished, t, st')
    ∧ (e = AssertionError ∨ e = TypeError ∨ ∃ d, e = WsdlError d)
    ∧ filter (λ ev, is_call ev = true) t = [].
Proof.
  destruct (decide (1 ≤ p ≤ 250)) as [Hp|Hp].
  - destruct (CachingClient (wsdl_url (instance (self st)) tb)
                (transport (self st)) (world st)) as [[d|u] w] eqn:Hw.
    + exists (WsdlError d). eexists _, _. split; [|split].
      * apply next_Created_raise. unfold resolve. rewrite range_check by done.
        unfold bind. rewrite client_run. cbn zeta. by rewrite Hw.
      * eauto.
      * done.
    + exists TypeError. eexists _, _. split; [|split].
      * apply next_Created_raise. by apply resolve_nothing with u.
      * eauto.
      * done.
  - exists AssertionError, [], st. split; [|split].
    + by apply next_Created_raise, resolve_assert.
    + eauto.
    + done.
Qed.

(** C4. Caller-supplied identifiers: whatever the filter argument is, the
    pool is one and the same list; it has no duplicates, its elements are
    exactly the non-[None] elements of the input, reordering the input
    changes at most its order, the trace holds no lookup, and for
    [{"a","b",None,"a"}] in any order the pool is ["a"] and ["b"]. *)
Theorem supplied_identifiers_pool tb (l : list (option string)) (p : Z)
    (st : Store) u w :
  1 ≤ p ≤ 250 →
  CachingClient (wsdl_url (instance (self st)) tb) (transport (self st)) (world st)
    = (inr u, w) →
  ∃ pool t,
    (∀ qp, resolve tb qp (Some l) p st
           = (inr (bound_client (self st) tb, pool), t,
              {| self := self st; world := w |}))
    ∧ filter (λ e, is_call e = true) t = []
    ∧ NoDup pool
    ∧ (∀ x, x ∈ pool ↔ x ∈ l ∧ x ≠ None)
    ∧ (∀ l' qp' c' pool' t' st',
         l' ≡ₚ l →
         resolve tb qp' (Some l') p st = (inr (c', pool'), t', st') →
         pool' ≡ₚ pool)
    ∧ (l ≡ₚ [Some "a"; Some "b"; None; Some "a"] →
       pool ≡ₚ [Some "a"; Some "b"]).
Proof.
  intros Hp Hw.
  assert (Hmem : ∀ l0 x, x ∈ Py.to_list (list_to_set l0 ∖ {[None]})
                         ↔ x ∈ l0 ∧ x ≠ None).
  { intros l0 x. rewrite Py.to_list_elem. set_solver. }
  exists (Py.to_list (list_to_set l ∖ {[None]})). eexists.
  split; [intros qp; by apply resolve_given with u|].
  split; [done|]. split; [apply Py.to_list_NoDup|]. split; [apply Hmem|].
  split.
  - intros l' qp' c' pool' t' st' Hl.
    rewrite (resolve_given _ _ _ _ _ u w Hp Hw). intros [= _ <- _ _].
    apply NoDup_Permutation; try apply Py.to_list_NoDup.
    intros x. rewrite !Hmem. by rewrite Hl.
  - intros Hl. apply NoDup_Permutation; [apply Py.to_list_NoDup| |].
    + repeat constructor; set_solver.
    + intros x. rewrite Hmem, Hl. set_solver.
Qed.

(** C6, as the code has it.  The list paged through never holds [None].
    With caller-supplied identifiers it has no duplicates.  With
    identifiers omitted it is the comma-split of the string [getKeys]
    returned, as it is (or empty when the count is zero): it is free of
    duplicates exactly when that string names no identifier twice. *)
Theorem paging_list_invariant tb qp ids (p : Z) (st st' : Store) c pool
    (t : list Event) :
  resolve tb qp ids p st = (inr (c, pool), t, st') →
  (None ∉ pool)
  ∧ (ids ≠ None → NoDup pool)
  ∧ (ids = None →
     ∃ kw resp w1 n,
       getKeys c kw w1 = (inr resp, world st')
       ∧ Py.int (count resp) = inr n
       ∧ ((n = 0 ∧ pool = [])
          ∨ (n ≠ 0 ∧ ∃ s0 rest,
               sys_id resp = s0 :: rest
               ∧ pool = Some <$> Py.split "," s0
               ∧ (NoDup pool ↔ NoDup (Py.split "," s0))))).
Proof.
  intros E. split; [|split].
  - apply resolve_inv in E as (_ & _ & Hc). by destruct (Hc c pool eq_refl) as (_ & _ & ?).
  - destruct ids as [l|]; [intros _|done].
    pose proof E as (_ & _ & Hc)%resolve_inv.
    destruct (Hc c pool eq_refl) as (Hp & -> & _). clear Hc.
    revert E. unfold resolve. rewrite range_check by done.
    unfold bind. rewrite client_run. cbn zeta.
    destruct (CachingClient _ _ _) as [[d|u] w1]; [done|].
    rewrite remove_None. intros [= <- _ _]. apply Py.to_list_NoDup.
  - intros ->. apply resolve_lookup_inv in E
      as (kw & u & w1 & resp & n & _ & _ & Hk & Hn & Hpool).
    exists kw, resp, w1, n. split; [done|]. split; [done|].
    destruct Hpool as [?|(Hne & s0 & rest & Hs & ->)]; [by left|right].
    split; [done|]. exists s0, rest. split; [done|]. split; [done|].
    split.
    + intros H. eapply NoDup_fmap; [|exact H]. apply _.
    + intros H. apply NoDup_fmap_2; [apply _|done].
Qed.


(** *** Pulling page by page *)

Lemma paging_yield_trace (c : Client) (ids : list (option string)) (start p : Z)
    (st st' : Store) (page : Page) (g : generator) (t : list Event) :
  paging c ids start p st = (inr (Some (page, g)), t, st') →
  ∃ q, t = [EGetRecords c q].
Proof.
  intros E. destruct (paging_trace _ _ _ _ _ _ _ _ E) as [_ [->|(q & -> & _)]];
    [|by exists q].
  exfalso. revert E. unfold paging, bind, lift, remote, ret.
  destruct (start <? Py.len ids); [|done].
  destruct (Py.join _ _) as [e|j]; [done|].
  by destruct (getRecords _ _ _) as [[d|pg] w].
Qed.

(** A pull that hands a page over has issued exactly one fetch. *)
Lemma next_Yield_fetch (g g' : generator) (st st' : Store) page (t : list Event) :
  next g st = (Yield page, g', t, st') →
  length (filter (λ e, is_getRecords e = true) t) = 1%nat.
Proof.
  unfold next. destruct g as [tb qp ids p|c ids s p|]; cbn [resume].
  - unfold bind.
    destruct (resolve tb qp ids p st) as [[[e|[c pool]] t0] st0] eqn:E; [done|].
    apply resolve_inv in E as (_ & Hf%no_fetch_filter & _). cbn [fst snd].
    destruct (paging c pool 0 p st0) as [[[e|[[pg g0]|]] t1] st1] eqn:E';
      [done| |done].
    apply paging_yield_trace in E' as [q ->].
    intros [= _ _ <- _]. by rewrite filter_app, Hf.
  - destruct (paging c ids (s + p) p st) as [[[e|[[pg g0]|]] t1] st1] eqn:E';
      [done| |done].
    apply paging_yield_trace in E' as [q ->]. by intros [= _ _ <- _].
  - done.
Qed.

(** [k] pulls that all hand a page over have issued [k] fetches. *)
Lemma pulls_fetches (k : nat) (g g' : generator) (st st' : Store) pages
    (t : list Event) :
  pulls k g st = (Yield <$> pages, g', t, st') →
  length (filter (λ e, is_getRecords e = true) t) = length pages.
Proof.
  revert g g' st st' pages t.
  induction k as [|k IH]; intros g g' st st' pages t.
  - cbn [pulls]. intros [= Hp _ <- _]. by destruct pages.
  - cbn [pulls].
    destruct (next g st) as [[[o g1] t1] st1] eqn:E1.
    destruct (pulls k g1 st1) as [[[os g2] t2] st2] eqn:E2.
    destruct pages as [|page pages]; [done|].
    rewrite fmap_cons. intros [= -> -> _ <- _].
    apply next_Yield_fetch in E1. apply IH in E2.
    rewrite filter_app, length_app, E1, E2. done.
Qed.

(** Whatever happens, [k] pulls issue at most [k] fetches and leave the
    object as it was. *)
Lemma pulls_inv (k : nat) (g g' : generator) (st st' : Store) os (t : list Event) :
  pulls k g st = (os, g', t, st') →
  self st' = self st
  ∧ (length (filter (λ e, is_getRecords e = true) t) ≤ k)%nat.
Proof.
  revert g g' st st' os t. induction k as [|k IH]; intros g g' st st' os t.
  - cbn [pulls]. intros [= _ _ <- <-]. split; [done|simpl; lia].
  - cbn [pulls].
    destruct (next g st) as [[[o g1] t1] st1] eqn:E1.
    destruct (pulls k g1 st1) as [[[os' g2] t2] st2] eqn:E2.
    intros [= _ _ <- <-].
    apply next_inv in E1 as (Hs1 & Hle1 & _). apply IH in E2 as (Hs2 & Hle2).
    split; [congruence|]. rewrite filter_app, length_app. lia.
Qed.

(** The first [k] pulls of a sequence that has at least [k] pages are its
    first [k] pages. *)
Lemma pulls_drain (k fuel : nat) (g : generator) (st st' : Store) pages fin
    (t : list Event) :
  drain fuel g st = (pages, fin, t, st') →
  (k ≤ length pages)%nat →
  ∃ g' t' st'', pulls k g st = (Yield <$> take k pages, g', t', st'').
Proof.
  revert fuel g st st' pages fin t.
  induction k as [|k IH]; intros fuel g st st' pages fin t.
  - intros _ _. cbn [pulls]. rewrite take_0. by eexists _, _, _.
  - destruct fuel as [|fuel]; cbn [drain].
    { intros [= <- _ _ _]. simpl. lia. }
    cbn [pulls].
    destruct (next g st) as [[[o g1] t1] st1] eqn:E1.
    destruct o as [page| |]; try (intros [= <- _ _ _]; simpl; lia).
    destruct (drain fuel g1 st1) as [[[pages' fin'] t2] st2] eqn:E2.
    intros [= <- _ _ _] Hk. simpl in Hk.
    destruct (IH _ _ _ _ _ _ _ E2 ltac:(lia)) as (g' & t' & st'' & ->).
    by eexists _, _, _.
Qed.

(** Consuming a sequence leaves the object as it was. *)
Lemma drain_self (fuel : nat) (g : generator) (st st' : Store) pages fin
    (t : list Event) :
  drain fuel g st = (pages, fin, t, st') → self st' = self st.
Proof.
  revert g st st' pages fin t.
  induction fuel as [|fuel IH]; intros g st st' pages fin t.
  - by intros [= _ _ _ <-].
  - cbn [drain].
    destruct (next g st) as [[[o g1] t1] st1] eqn:E1.
    apply next_inv in E1 as (Hs1 & _).
    destruct o as [page| |]; try (intros [= _ _ _ <-]; done).
    destruct (drain fuel g1 st1) as [[[pages' fin'] t2] st2] eqn:E2.
    intros [= _ _ _ <-]. apply IH in E2. congruence.
Qed.

Lemma resolve_given_inv tb qp (l : list (option string)) (p : Z)
    (st st' : Store) c pool (t : list Event) :
  resolve tb qp (Some l) p st = (inr (c, pool), t, st') →
  pool = Py.to_list (list_to_set l ∖ {[None]}).
Proof.
  intros E. pose proof E as (_ & _ & Hc)%resolve_inv.
  destruct (Hc c pool eq_refl) as (Hp & _ & _). clear Hc.
  revert E. unfold resolve. rewrite range_check by done.
  unfold bind. rewrite client_run. cbn zeta.
  destruct (CachingClient _ _ _) as [[d|u] w1]; [done|].
  rewrite remove_None. by intros [= _ <- _ _].
Qed.

(** The filter expressions of the fetches of a list of chunks. *)
Lemma queries_fetch_of (c : Client) (cs : list (list string)) :
  queries (fetch_of c <$> cs) = (λ ch, "sys_idIN" +:+ Py.join_str "," ch) <$> cs.
Proof.
  unfold queries. induction cs as [|ch cs IH]; [done|].
  rewrite !fmap_cons. cbn [omap list_omap fetch_of query_of]. by rewrite <- IH.
Qed.

Lemma queries_no_fetch (t : list Event) :
  Forall (λ e, is_getRecords e = false) t → queries t = [].
Proof.
  unfold queries. induction 1 as [|e t He _ IH]; [done|].
  destruct e; try done; cbn [omap list_omap query_of]; by rewrite <- IH.
Qed.

(** A list that fits in one page is one chunk. *)
Lemma chunks_single {A} (p : nat) (l : list A) :
  l ≠ [] → (length l ≤ p)%nat → chunks p l = [l].
Proof.
  intros Hl Hp. rewrite chunks_cons; [|destruct l; simpl in *; (done || lia)|done].
  rewrite take_ge, drop_ge by done. done.
Qed.

(** C1. Once the identifiers are resolved to [pool] and with a remote
    side that answers, consuming the sequence issues one fetch per chunk
    of [pool], chunk after chunk in the order of [pool], and yields one
    page per fetch.  The chunks are consecutive (their concatenation is
    [pool]), none is empty or longer than [page_size], all are full but
    possibly the last; 260 identifiers at 250 a page make two chunks, of
    250 and of 10; and with caller-supplied identifiers the identifiers
    of all chunks together are the non-[None] ones of the input, each
    once. *)
Theorem pages_partition_identifiers tb qp ids (p : Z) (st st0 : Store) c pool
    (t0 : list Event) :
  resolve tb qp ids p st = (inr (c, pool), t0, st0) →
  fetch_ok →
  ∃ ss pages st',
    let cs := chunks (Z.to_nat p) ss in
    pool = Some <$> ss
    ∧ drain (S (length cs)) (run_query tb qp ids p) st
      = (pages, Some StopIteration,
         t0 ++ ((λ ch, EGetRecords c ("sys_idIN" +:+ Py.join_str "," ch)) <$> cs),
         st')
    ∧ length pages = length cs
    ∧ concat cs = ss
    ∧ Forall (λ ch, (0 < length ch ≤ Z.to_nat p)%nat) cs
    ∧ length <$> cs
      = replicate (length ss / Z.to_nat p) (Z.to_nat p) ++
        (if (length ss mod Z.to_nat p =? 0)%nat then []
         else [(length ss mod Z.to_nat p)%nat])
    ∧ (length ss = 260%nat → p = 250 → length <$> cs = [250; 10]%nat)
    ∧ (∀ l, ids = Some l →
         NoDup (concat cs)
         ∧ ∀ s, s ∈ concat cs ↔ Some s ∈ l).
Proof.
  intros Hres Hok.
  pose proof Hres as (_ & _ & Hc)%resolve_inv.
  destruct (Hc c pool eq_refl) as (Hp & _ & [ss ->]%strings_of). clear Hc.
  assert (HP : (0 < Z.to_nat p)%nat) by lia.
  destruct (run_loop_ok c ss p ltac:(lia) Hok
              (S (length (chunks (Z.to_nat p) ss))) 0 st0 ltac:(done))
    as (pages & st' & Hrun & Hlen & _).
  { rewrite drop_0. lia. }
  rewrite drop_0 in Hrun, Hlen.
  exists ss, pages, st'. cbn zeta.
  split; [done|]. split.
  { rewrite drain_Created, Hres, Hrun. done. }
  split; [done|]. split; [by apply concat_chunks|].
  split; [by apply chunks_sizes|]. split; [by apply chunks_lengths|].
  split.
  { intros Hn ->. rewrite chunks_lengths, Hn by done. done. }
  intros l ->. rewrite concat_chunks by done.
  apply resolve_given_inv in Hres.
  split.
  - apply (NoDup_fmap Some). rewrite Hres. apply Py.to_list_NoDup.
  - intros s. rewrite <- (list_elem_of_fmap_inj Some), Hres, Py.to_list_elem.
    set_solver.
Qed.

(** C5. Once the identifiers are resolved to [pool], the filter
    expressions of the fetches are, in order, ["sys_idIN"] followed by the
    comma-joined identifiers of the first chunks of [pool] (of all of them
    when the sequence is consumed to its end), the identifiers being
    copied as they are.  So a looked-up identifier string that fits in one
    page comes back verbatim, and for the answer
    [{"count":"2","sys_id":["x,y"]}] and a page of two or more the only
    fetch asks for [sys_idINx,y]. *)
Theorem fetch_filter_expression tb qp ids (p : Z) (st st0 : Store) c pool
    (t0 : list Event) :
  resolve tb qp ids p st = (inr (c, pool), t0, st0) →
  ∃ ss,
    let expected :=
      (λ ch, "sys_idIN" +:+ Py.join_str "," ch) <$> chunks (Z.to_nat p) ss in
    pool = Some <$> ss
    ∧ (∀ fuel pages fin t st',
         drain fuel (run_query tb qp ids p) st = (pages, fin, t, st') →
         queries t `prefix_of` expected
         ∧ (fin = Some StopIteration → queries t = expected))
    ∧ (∀ s0, ss = Py.split "," s0 → (length ss ≤ Z.to_nat p)%nat →
         expected = ["sys_idIN" +:+ s0])
    ∧ (∀ kw u w1 w2 page w3 fuel,
         2 ≤ p →
         CachingClient (wsdl_url (instance (self st)) tb) (transport (self st))
           (world st) = (inr u, w1) →
         getKeys c kw w1 = (inr {| count := "2"; sys_id := ["x,y"] |}, w2) →
         getRecords c "sys_idINx,y" w2 = (inr page, w3) →
         drain (S (S fuel)) (run_query tb (Some kw) None p) st
         = ([page], Some StopIteration,
            [EWsdl (wsdl_url (instance (self st)) tb) (transport (self st));
             EGetKeys c kw; EGetRecords c "sys_idINx,y"],
            {| self := self st; world := w3 |})).
Proof.
  intros Hres.
  pose proof Hres as (_ & Hnf & Hc)%resolve_inv.
  destruct (Hc c pool eq_refl) as (Hp & Hcl & [ss ->]%strings_of). clear Hc.
  assert (HP : (0 < Z.to_nat p)%nat) by lia.
  exists ss. cbn zeta. split; [done|]. split; [|split].
  - intros [|fuel] pages fin t st'.
    { intros [= _ <- <- _]. split; [apply prefix_nil|done]. }
    rewrite drain_Created, Hres.
    destruct (run_loop (S fuel) c (Some <$> ss) 0 p st0)
      as [[[pages' fin'] t1] st1] eqn:E.
    intros [= _ <- <- _].
    destruct (run_loop_any c ss p ltac:(lia) (S fuel) 0 st0 _ _ _ _ ltac:(lia) E)
      as (Hpre & _ & _ & _ & Hstop & _).
    rewrite drop_0 in Hpre, Hstop.
    unfold queries in *. rewrite omap_app.
    fold (queries t0). rewrite (queries_no_fetch t0 Hnf). cbn [app].
    fold (queries t1). rewrite <- (queries_fetch_of c). split.
    + destruct Hpre as [k ->]. unfold queries. rewrite omap_app.
      by eexists.
    + intros Hfin. by destruct (Hstop Hfin) as [-> _].
  - intros s0 -> Hlen. rewrite chunks_single; [|apply split_nonempty|done].
    rewrite list_fmap_singleton. by rewrite join_split.
  - intros kw u w1 w2 page w3 fuel Hp2 Hw Hk Hr. subst c.
    rewrite drain_Created.
    rewrite (resolve_lookup tb kw p st u w1 _ w2 2 Hp Hw Hk eq_refl).
    cbn [Z.eqb sys_id]. cbn [run_loop].
    change (Some <$> Py.split "," "x,y") with (Some <$> ["x"; "y"]).
    rewrite paging_fetch by (simpl; lia). cbn zeta.
    rewrite drop_0, take_ge by (simpl; lia). cbn [world].
    change ("sys_idIN" +:+ Py.join_str "," ["x"; "y"]) with "sys_idINx,y".
    rewrite Hr. rewrite paging_done by (unfold Py.len; simpl; lia).
    done.
Qed.

(** C7. Once the identifiers are resolved to a list of more than [k]
    chunks and with a remote side that answers, the first [k] pulls hand
    [k] pages over and the trace after them holds exactly [k] fetches:
    nothing is fetched ahead.  For [k = 1]: one page, one fetch. *)
Theorem no_prefetch (k : nat) tb qp ids (p : Z) (st st0 : Store) c pool
    (t0 : list Event) :
  resolve tb qp ids p st = (inr (c, pool), t0, st0) →
  fetch_ok →
  Z.of_nat k < page_count (Py.len pool) p →
  ∃ pages g' t st',
    pulls k (run_query tb qp ids p) st = (Yield <$> pages, g', t, st')
    ∧ length pages = k
    ∧ length (filter (λ e, is_getRecords e = true) t) = k.
Proof.
  intros Hres Hok Hk.
  pose proof Hres as (_ & _ & Hc)%resolve_inv.
  destruct (Hc c pool eq_refl) as (Hp & _ & [ss ->]%strings_of). clear Hc.
  assert (HP : (0 < Z.to_nat p)%nat) by lia.
  destruct (run_loop_ok c ss p ltac:(lia) Hok
              (S (length (chunks (Z.to_nat p) ss))) 0 st0 ltac:(done))
    as (pages & st' & Hrun & Hlen & _).
  { rewrite drop_0. lia. }
  rewrite drop_0 in Hrun, Hlen.
  assert (Hd : drain (S (length (chunks (Z.to_nat p) ss)))
                 (run_query tb qp ids p) st
               = (pages, Some StopIteration,
                  t0 ++ (fetch_of c <$> chunks (Z.to_nat p) ss), st')).
  { rewrite drain_Created, Hres, Hrun. done. }
  assert (Hkn : (k < length pages)%nat).
  { unfold Py.len in Hk. rewrite length_fmap in Hk.
    pose proof (length_chunks (Z.to_nat p) ss HP) as Hn.
    rewrite Z2Nat.id in Hn by lia. lia. }
  destruct (pulls_drain k _ _ _ _ _ _ _ Hd ltac:(lia)) as (g' & t & st'' & Hpl).
  exists (take k pages), g', t, st''.
  split; [done|]. split; [rewrite length_take; lia|].
  apply pulls_fetches in Hpl. rewrite Hpl, length_take. lia.
Qed.

(** C8. For every list of identifiers and every [page_size] of at least
    1, the paging loop run for one more turn than there are pages has
    ended, whatever the remote side does, and has not yielded more than
    [⌈n / page_size⌉] pages; with a remote side that answers it ends
    normally after exactly that many pages, and so does the sequence of
    [run_query] once the identifiers are resolved. *)
Theorem paging_terminates (c : Client) (ss : list string) (p : Z) :
  1 ≤ p →
  let n := page_count (Z.of_nat (length ss)) p in
  (∀ st pages fin t st',
     run_loop (S (Z.to_nat n)) c (Some <$> ss) 0 p st = (pages, fin, t, st') →
     fin ≠ None ∧ Z.of_nat (length pages) ≤ n)
  ∧ (fetch_ok →
     ∀ st, ∃ pages t st',
       run_loop (S (Z.to_nat n)) c (Some <$> ss) 0 p st
         = (pages, Some StopIteration, t, st')
       ∧ Z.of_nat (length pages) = n)
  ∧ (fetch_ok →
     ∀ tb qp ids st t0 st0,
       resolve tb qp ids p st = (inr (c, Some <$> ss), t0, st0) →
       ∃ pages t st',
         drain (S (Z.to_nat n)) (run_query tb qp ids p) st
           = (pages, Some StopIteration, t, st')
         ∧ Z.of_nat (length pages) = n).
Proof.
  intros Hp n.
  assert (HP : (0 < Z.to_nat p)%nat) by lia.
  assert (Hn : n = Z.of_nat (length (chunks (Z.to_nat p) ss))).
  { pose proof (length_chunks (Z.to_nat p) ss HP) as E.
    rewrite Z2Nat.id in E by lia. by rewrite E. }
  clearbody n. subst n. rewrite Nat2Z.id.
  set (cs := chunks (Z.to_nat p) ss).
  assert (Hrun : fetch_ok → ∀ st, ∃ pages t st',
             run_loop (S (length cs)) c (Some <$> ss) 0 p st
               = (pages, Some StopIteration, t, st')
             ∧ Z.of_nat (length pages) = Z.of_nat (length cs)).
  { intros Hok st.
    destruct (run_loop_ok c ss p Hp Hok (S (length cs)) 0 st ltac:(done))
      as (pages & st' & E & Hlen & _).
    { rewrite drop_0. fold cs. lia. }
    rewrite drop_0 in E, Hlen. exists pages; eexists _, st'.
    split; [exact E|]. by rewrite Hlen. }
  split; [|split; [done|]].
  - intros st pages fin t st' E.
    destruct (run_loop_any c ss p Hp (S (length cs)) 0 st _ _ _ _ ltac:(lia) E)
      as (_ & Hle & _ & Hfin & _).
    rewrite drop_0 in Hle, Hfin. fold cs in Hle, Hfin.
    split; [apply Hfin; lia|lia].
  - intros Hok tb qp ids st t0 st0 Hres.
    destruct (Hrun Hok st0) as (pages & t & st' & E & Hlen).
    exists pages, (t0 ++ t), st'. split; [|done].
    rewrite drain_Created, Hres, E. done.
Qed.

(** C9. Pulling from a generator, any number of times, and consuming it
    leave the [SNSoap] object as it was: [instance], [session] and
    [transport] are those [__init__] set.  A later invocation therefore
    runs as on the freshly constructed object; all it can see of an
    earlier one is what the remote side remembers. *)
Theorem object_unchanged (i u pw : string) (st : Store) :
  self st = __init__ i u pw →
  (∀ k g, instance (self (pulls k g st).2) = i
          ∧ session (self (pulls k g st).2) = {| auth := Some (u, pw) |}
          ∧ transport (self (pulls k g st).2)
            = {| transport_session := {| auth := Some (u, pw) |} |})
  ∧ (∀ fuel g, self (drain fuel g st).2 = __init__ i u pw)
  ∧ (∀ fuel g fuel' tb qp ids p,
       let st1 := (drain fuel g st).2 in
       drain fuel' (run_query tb qp ids p) st1
       = drain fuel' (run_query tb qp ids p)
           {| self := __init__ i u pw; world := world st1 |}).
Proof.
  intros Hs. split; [|split].
  - intros k g. destruct (pulls k g st) as [[[os g'] t] st'] eqn:E.
    apply pulls_inv in E as [E _]. cbn [snd]. rewrite E, Hs. done.
  - intros fuel g. destruct (drain fuel g st) as [[[pages fin] t] st'] eqn:E.
    apply drain_self in E. cbn [snd]. congruence.
  - intros fuel g fuel' tb qp ids p.
    destruct (drain fuel g st) as [[[pages fin] t] st'] eqn:E.
    apply drain_self in E. cbn [snd]. rewrite <- Hs, <- E. by destruct st'.
Qed.

End Contract.

(** ** The contract on the scripted remote side *)
Section Scripted.
#[local] Existing Instance Mock.zeep.
#[local] Existing Instance elements_order.

Lemma mock_fetch_ok : fetch_ok.
Proof. intros c q w. by eexists _, _. Qed.

Lemma page_size_rejected_witness :
  ¬ (1 ≤ 251 ≤ 250)
  ∧ next (run_query "incident" None (Some [Some "a"]) 251) (Mock.store Mock.no_keys)
    = (Raise AssertionError, Finished, [], Mock.store Mock.no_keys).
Proof.
  split; [lia|].
  apply (page_size_rejected "incident" None (Some [Some "a"]) 251
           (Mock.store Mock.no_keys)).
  lia.
Defined.

Lemma zero_count_no_pages_witness :
  ∃ t, drain 1 (run_query "incident" (Some Mock.no_filter) None 250) (Mock.store Mock.no_keys)
       = ([], Some StopIteration, t, Mock.store Mock.no_keys)
       ∧ length (filter (λ e, is_call e = true) t) = 1%nat.
Proof.
  destruct (zero_count_no_pages "incident" Mock.no_filter 250 (Mock.store Mock.no_keys)
              tt (Mock.answering Mock.no_keys) Mock.no_keys
              (Mock.answering Mock.no_keys))
    as (t & Hd & Hc & _); [lia|reflexivity|reflexivity|reflexivity|].
  exists t. split; [apply (Hd 0%nat)|]. by rewrite Hc.
Defined.

Lemma no_filter_no_identifiers_witness :
  ∃ t, next (run_query "incident" None None 250) (Mock.store Mock.xy)
       = (Raise TypeError, Finished, t, Mock.store Mock.xy)
       ∧ filter (λ e, is_call e = true) t = [].
Proof.
  destruct (no_filter_no_identifiers "incident" 250 (Mock.store Mock.xy)
              tt (Mock.answering Mock.xy))
    as (t & Hn & _ & Hc); [lia|reflexivity|].
  by exists t.
Defined.

Lemma supplied_identifiers_pool_witness :
  ∃ pool t,
    resolve "incident" None (Some [Some "a"; Some "b"; None; Some "a"]) 250
      (Mock.store Mock.xy)
    = (inr (Mock.incident, pool), t, Mock.store Mock.xy)
    ∧ pool ≡ₚ [Some "a"; Some "b"].
Proof.
  destruct (supplied_identifiers_pool "incident"
              [Some "a"; Some "b"; None; Some "a"] 250 (Mock.store Mock.xy)
              tt (Mock.answering Mock.xy))
    as (pool & t & Hr & _ & _ & _ & _ & Hab); [lia|reflexivity|].
  exists pool, t. split; [apply Hr|]. by apply Hab.
Defined.

(** C6 as stated fails: the list looked up for the answer
    [{"count":"2","sys_id":["a,a"]}] is paged through with its duplicate,
    and the fetch asks for [sys_idINa,a]. *)
Lemma lookup_keeps_duplicates :
  ∃ t st',
    next (run_query "incident" (Some Mock.no_filter) None 250) (Mock.store Mock.aa)
    = (Yield (Mock.page "sys_idINa,a"),
       Suspended Mock.incident [Some "a"; Some "a"] 0 250, t, st')
    ∧ ¬ NoDup [Some "a"; Some "a"].
Proof.
  eexists _, _. split; [reflexivity|].
  intros H. apply NoDup_cons in H as [H _]. apply H. by left.
Qed.

Lemma paging_list_invariant_witness :
  (None ∉ [Some "a"; Some "a"])
  ∧ (NoDup [Some "a"; Some "a"] ↔ NoDup (Py.split "," "a,a")).
Proof.
  destruct (paging_list_invariant "incident" (Some Mock.no_filter) None 250
              (Mock.store Mock.aa) (Mock.store Mock.aa) Mock.incident
              [Some "a"; Some "a"]
              [EWsdl "https://dev.service-now.com/incident.do?WSDL"
                 (transport Mock.sn);
               EGetKeys Mock.incident Mock.no_filter])
    as (Hnone & _ & Hl); [reflexivity|].
  split; [exact Hnone|].
  destruct (Hl eq_refl) as (kw & resp & w1 & n & Hk & _ & [[_ [=]]|Hsplit]).
  destruct Hsplit as (_ & s0 & rest & Hs & Hp & Hnd).
  cbv [getKeys Mock.zeep Mock.get_keys] in Hk. injection Hk as Hkeys Hw.
  rewrite Hw in Hkeys. injection Hkeys as <-. injection Hs as <- _. exact Hnd.
Defined.

Lemma pages_partition_identifiers_witness :
  ∃ pages t st',
    drain 3 (run_query "incident" None (Some (Mock.idents 260)) 250)
      (Mock.store Mock.no_keys)
    = (pages, Some StopIteration, t, st')
    ∧ length pages = 2%nat
    ∧ length (queries t) = 2%nat.
Proof.
  destruct (pages_partition_identifiers "incident" None
              (Some (Mock.idents 260)) 250 (Mock.store Mock.no_keys)
              (Mock.store Mock.no_keys) Mock.incident
              (Py.to_list (list_to_set (Mock.idents 260) ∖ {[None]}))
              [EWsdl "https://dev.service-now.com/incident.do?WSDL"
                 (transport Mock.sn)])
    as (ss & pages & st' & Hpool & Hd & Hlen & _ & _ & _ & H260 & _);
    [vm_compute; reflexivity|exact mock_fetch_ok|].
  cbn zeta in *.
  assert (Hss : length ss = 260%nat).
  { rewrite <- (length_fmap Some ss), <- Hpool. vm_compute. reflexivity. }
  specialize (H260 Hss eq_refl).
  assert (Hcs : length (chunks (Z.to_nat 250) ss) = 2%nat).
  { rewrite <- (length_fmap length), H260. reflexivity. }
  rewrite Hcs in Hd, Hlen.
  eexists pages, _, st'. split; [exact Hd|]. split; [exact Hlen|].
  unfold queries. rewrite omap_app. cbn [omap list_omap query_of app].
  fold (fetch_of Mock.incident).
  fold (queries (fetch_of Mock.incident <$> chunks (Z.to_nat 250) ss)).
  by rewrite queries_fetch_of, length_fmap.
Defined.

Lemma fetch_filter_expression_witness :
  ∃ t st',
    drain 2 (run_query "incident" (Some Mock.no_filter) None 250)
      (Mock.store Mock.xy)
    = ([Mock.page "sys_idINx,y"], Some StopIteration, t, st')
    ∧ queries t = ["sys_idINx,y"].
Proof.
  destruct (fetch_filter_expression "incident" (Some Mock.no_filter) None 250
              (Mock.store Mock.xy) (Mock.store Mock.xy) Mock.incident
              [Some "x"; Some "y"]
              [EWsdl "https://dev.service-now.com/incident.do?WSDL"
                 (transport Mock.sn);
               EGetKeys Mock.incident Mock.no_filter])
    as (ss & _ & _ & _ & Hxy); [reflexivity|].
  eexists _, _. split.
  - apply (Hxy Mock.no_filter tt (Mock.answering Mock.xy)
             (Mock.answering Mock.xy) (Mock.page "sys_idINx,y")
             (snd (Mock.get_records Mock.incident "sys_idINx,y"
                     (Mock.answering Mock.xy))) 0%nat);
      (lia || reflexivity).
  - reflexivity.
Defined.

Lemma no_prefetch_witness :
  ∃ pages g' t st',
    pulls 1 (run_query "incident" None (Some (Mock.idents 5)) 2)
      (Mock.store Mock.no_keys)
    = (Yield <$> pages, g', t, st')
    ∧ length pages = 1%nat
    ∧ length (filter (λ e, is_getRecords e = true) t) = 1%nat.
Proof.
  apply (no_prefetch 1 "incident" None (Some (Mock.idents 5)) 2
           (Mock.store Mock.no_keys) (Mock.store Mock.no_keys) Mock.incident
           (Py.to_list (list_to_set (Mock.idents 5) ∖ {[None]}))
           [EWsdl "https://dev.service-now.com/incident.do?WSDL"
              (transport Mock.sn)]).
  - vm_compute. reflexivity.
  - exact mock_fetch_ok.
  - vm_compute. reflexivity.
Defined.

Lemma paging_terminates_witness :
  1 ≤ 2
  ∧ ∀ st, ∃ pages t st',
      run_loop 3 Mock.incident (Some <$> ["a"; "b"; "c"]) 0 2 st
      = (pages, Some StopIteration, t, st')
      ∧ Z.of_nat (length pages) = 2.
Proof.
  split; [lia|].
  destruct (paging_terminates Mock.incident ["a"; "b"; "c"] 2 ltac:(lia))
    as (_ & Hrun & _).
  exact (Hrun mock_fetch_ok).
Defined.

Lemma object_unchanged_witness :
  self (drain 5 (run_query "incident" (Some Mock.no_filter) None 1)
          (Mock.store Mock.xy)).2
  = Mock.sn.
Proof.
  destruct (object_unchanged "dev" "user" "secret" (Mock.store Mock.xy) eq_refl)
    as (_ & Hd & _).
  apply Hd.
Defined.

End Scripted.

(** * Further properties *)

(** ** Strings: joining and splitting back *)

Lemma append_assoc (a b c : string) : (a +:+ b) +:+ c = a +:+ (b +:+ c).
Proof.
  induction a as [|x a IH]; [done|].
  change (String x ((a +:+ b) +:+ c) = String x (a +:+ (b +:+ c))).
  by rewrite IH.
Qed.

Lemma join_str_cons (sep x : string) (l : list string) :
  l ≠ [] → Py.join_str sep (x :: l) = x +:+ sep +:+ Py.join_str sep l.
Proof. by destruct l. Qed.

Lemma join_str_app (sep : string) (l1 l2 : list string) :
  l1 ≠ [] → l2 ≠ [] →
  Py.join_str sep (l1 ++ l2) = Py.join_str sep l1 +:+ sep +:+ Py.join_str sep l2.
Proof.
  intros H1 H2. induction l1 as [|x l1 IH]; [done|].
  destruct l1 as [|y l1].
  - simpl app. by rewrite join_str_cons.
  - change ((x :: y :: l1) ++ l2) with (x :: ((y :: l1) ++ l2)).
    rewrite !join_str_cons by done. rewrite IH by done.
    by rewrite !append_assoc.
Qed.

Lemma chunks_nonempty {A} (p : nat) (l : list A) :
  (0 < p)%nat → l ≠ [] → chunks p l ≠ [].
Proof. intros Hp Hl. by rewrite chunks_cons. Qed.

(** Joining the joined chunks is joining the list. *)
Lemma join_chunks (sep : string) (p : nat) (l : list string) :
  (0 < p)%nat →
  Py.join_str sep (Py.join_str sep <$> chunks p l) = Py.join_str sep l.
Proof.
  intros Hp. pattern l. apply (chunks_ind p); [done|done|]. clear l.
  intros l Hl IH. rewrite chunks_cons by done. rewrite fmap_cons.
  destruct (decide (drop p l = [])) as [E|E].
  - rewrite E, chunks_nil. simpl. rewrite <- (take_drop p l) at 2.
    by rewrite E, app_nil_r.
  - rewrite join_str_cons.
    2:{ intros H%fmap_nil_inv. by apply (chunks_nonempty p) in H. }
    rewrite IH. rewrite <- (take_drop p l) at 3.
    rewrite join_str_app; [done| |done].
    intros H. apply Hl. rewrite <- (take_drop p l), H. simpl.
    destruct l; [done|]. destruct p; [lia|done].
Qed.

Lemma split_free (sep : ascii) (x : string) :
  free_of sep x = true → Py.split sep x = [x].
Proof.
  induction x as [|a x IH]; [done|]. cbn [free_of Py.split].
  destruct (Ascii.eqb a sep); [done|]. simpl. intros H. by rewrite IH.
Qed.

Lemma split_append_free (sep : ascii) (x s : string) :
  free_of sep x = true →
  Py.split sep (x +:+ String sep s) = x :: Py.split sep s.
Proof.
  induction x as [|a x IH]; cbn [free_of].
  - intros _. simpl. by rewrite Ascii.eqb_refl.
  - destruct (Ascii.eqb a sep) eqn:E; [done|]. simpl. intros H.
    rewrite E, IH by done. done.
Qed.

(** X14. Identifiers that hold no comma come back from the expression they
    were joined into; this is the reading the lookup branch applies to the
    string [getKeys] returns. *)
Theorem split_join_free (ss : list string) :
  ss ≠ [] →
  Forall (λ s, free_of "," s = true) ss →
  Py.split "," (Py.join_str "," ss) = ss.
Proof.
  intros Hne H. induction H as [|x ss Hx Hss IH]; [done|].
  destruct ss as [|y ss].
  - simpl. by apply split_free.
  - rewrite join_str_cons by done. change ("," +:+ ?s) with (String "," s).
    rewrite split_append_free by done. by rewrite IH.
Qed.

Section Further.
Context `{Zp : Zeep} `{SO : Py.SetOrder}.

(** ** The traces of a resolution *)

Lemma resolve_cases tb qp ids (p : Z) (st st' : Store) r (t : list Event) :
  resolve tb qp ids p st = (r, t, st') →
  let url := wsdl_url (instance (self st)) tb in
  let tr := transport (self st) in
  (¬ (1 ≤ p ≤ 250) ∧ t = [] ∧ r = inl AssertionError)
  ∨ (1 ≤ p ≤ 250
     ∧ (t = [EWsdl url tr]
        ∨ ∃ kw, qp = Some kw ∧ ids = None
                ∧ t = [EWsdl url tr; EGetKeys (bound_client (self st) tb) kw])).
Proof.
  cbn zeta. destruct (decide (1 ≤ p ≤ 250)) as [Hp|Hp].
  2:{ rewrite resolve_assert by done. intros [= <- <- <-]. by left. }
  intros E. right. split; [done|]. revert E.
  unfold resolve. rewrite range_check by done.
  unfold bind. rewrite client_run. cbn zeta.
  destruct (CachingClient _ _ _) as [[d|u] w]; [intros [= <- <- <-]; by left|].
  destruct ids as [l|]; [unfold ret; intros [= <- <- <-]; by left|].
  destruct qp as [kw|]; [|unfold raise; intros [= <- <- <-]; by left].
  unfold remote, lift, ret, raise. cbn [world self].
  destruct (getKeys _ _ _) as [[d|resp] w2];
    [intros [= <- <- <-]; right; by exists kw|].
  destruct (Py.int (count resp)) as [e|n];
    [intros [= <- <- <-]; right; by exists kw|].
  destruct (n =? 0); [intros [= <- <- <-]; right; by exists kw|].
  destruct (sys_id resp); intros [= <- <- <-]; right; by exists kw.
Qed.

(** ** Paging as a fold over the chunks *)

Lemma run_loop_serve (c : Client) (ss : list string) (p : Z) :
  1 ≤ p →
  ∀ (fuel : nat) (start : Z) (st : Store),
    0 ≤ start →
    (length (chunks (Z.to_nat p) (drop (Z.to_nat start) ss)) < fuel)%nat →
    run_loop fuel c (Some <$> ss) start p st =
      let '(pages, fault, sent, w) :=
        serve c ((λ ch, "sys_idIN" +:+ Py.join_str "," ch)
                   <$> chunks (Z.to_nat p) (drop (Z.to_nat start) ss))
              (world st) in
      (pages, Some (ending fault), EGetRecords c <$> sent,
       {| self := self st; world := w |}).
Proof.
  intros Hp. induction fuel as [|fuel IH]; intros start st Hs Hf; [lia|].
  cbn [run_loop].
  destruct (Z_lt_ge_dec start (Z.of_nat (length ss))) as [Hlt|Hge].
  - rewrite paging_fetch by lia. cbn zeta.
    assert (Hne : drop (Z.to_nat start) ss ≠ []).
    { intros E. apply (f_equal length) in E. rewrite length_drop in E.
      simpl in E. lia. }
    rewrite chunks_cons in Hf |- * by (done || lia).
    assert (Hdd : drop (Z.to_nat (start + p)) ss =
                  drop (Z.to_nat p) (drop (Z.to_nat start) ss)).
    { rewrite drop_drop. f_equal. lia. }
    rewrite <- Hdd in Hf |- *. rewrite fmap_cons. cbn [serve].
    destruct (getRecords _ _ _) as [[d|page] w]; [done|].
    rewrite IH by (lia || (simpl in Hf; lia)). cbn [world self].
    by destruct (serve _ _ _) as [[[pages fault] sent] w'].
  - rewrite paging_done by (unfold Py.len; rewrite length_fmap; lia).
    rewrite drop_ge by lia. rewrite chunks_nil. simpl. by destruct st.
Qed.

(** What [serve] sends: the first expressions, one per page received and
    one more for the failure. *)
Lemma serve_sent (c : Client) (qs : list string) (w w' : World) pages fault sent :
  serve c qs w = (pages, fault, sent, w') →
  sent = take (length sent) qs
  ∧ length sent
    = (length pages + match fault with Some _ => 1 | None => 0 end)%nat
  ∧ (fault = None → sent = qs).
Proof.
  revert w w' pages fault sent.
  induction qs as [|q qs IH]; intros w w' pages fault sent.
  - by intros [= <- <- <- _].
  - cbn [serve]. destruct (getRecords c q w) as [[d|page] w1].
    + by intros [= <- <- <- _].
    + destruct (serve c qs w1) as [[[pages' fault'] sent'] w2] eqn:E.
      intros [= <- <- <- _]. apply IH in E as (E1 & E2 & E3).
      simpl. split; [by rewrite <- E1|]. split; [by rewrite E2|].
      intros H. by rewrite E3.
Qed.

(** X8. Once the identifiers are resolved, consuming the sequence is asking
    the remote side for the chunk expressions one after the other up to the
    first failure: the pages are its answers, as they came and in that
    order, the trace is the resolution's followed by the fetches sent, the
    world is the one the last fetch left, and the sequence ends normally or
    with the remote's error. *)
Theorem paging_is_serving tb qp ids (p : Z) (st st0 : Store) c pool
    (t0 : list Event) (fuel : nat) :
  resolve tb qp ids p st = (inr (c, pool), t0, st0) →
  ∃ ss, pool = Some <$> ss ∧
    let qs := (λ ch, "sys_idIN" +:+ Py.join_str "," ch)
                <$> chunks (Z.to_nat p) ss in
    ((length qs < fuel)%nat →
     drain fuel (run_query tb qp ids p) st =
       let '(pages, fault, sent, w) := serve c qs (world st0) in
       (pages, Some (ending fault), t0 ++ (EGetRecords c <$> sent),
        {| self := self st; world := w |})).
Proof.
  intros Hres.
  pose proof Hres as (Hself & _ & Hc)%resolve_inv.
  destruct (Hc c pool eq_refl) as (Hp & _ & [ss ->]%strings_of). clear Hc.
  exists ss. split; [done|]. cbn zeta. rewrite length_fmap. intros Hf.
  destruct fuel as [|fuel]; [lia|].
  rewrite drain_Created, Hres.
  rewrite run_loop_serve by (rewrite ?drop_0; lia). rewrite drop_0.
  destruct (serve _ _ _) as [[[pages fault] sent] w]. by rewrite Hself.
Qed.

(** X9. Once the identifiers are resolved, a consumption to the end can
    only fail with the remote's error on a fetch; the fetches sent are the
    first chunk expressions, as many as pages were delivered plus the one
    that failed: a failed fetch is not sent again and no chunk is skipped. *)
Theorem fetches_accounted tb qp ids (p : Z) (st st0 st' : Store) c pool
    (t0 t : list Event) (fuel : nat) pages fin :
  resolve tb qp ids p st = (inr (c, pool), t0, st0) →
  (Z.to_nat (page_count (Py.len pool) p) < fuel)%nat →
  drain fuel (run_query tb qp ids p) st = (pages, fin, t, st') →
  ∃ ss, pool = Some <$> ss ∧
    let qs := (λ ch, "sys_idIN" +:+ Py.join_str "," ch)
                <$> chunks (Z.to_nat p) ss in
    (fin = Some StopIteration ∨ ∃ d, fin = Some (Raise (ServiceError d)))
    ∧ queries t = take (length (queries t)) qs
    ∧ length (queries t)
      = (length pages + match fin with Some StopIteration => 0 | _ => 1 end)%nat
    ∧ (fin = Some StopIteration → queries t = qs).
Proof.
  intros Hres Hf Hd.
  pose proof Hres as (Hself & Hnf & Hc)%resolve_inv.
  destruct (Hc c pool eq_refl) as (Hp & _ & [ss ->]%strings_of). clear Hc.
  exists ss. split; [done|]. cbn zeta.
  assert (HP : (0 < Z.to_nat p)%nat) by lia.
  assert (Hn : Z.to_nat (page_count (Py.len (Some <$> ss)) p)
               = length (chunks (Z.to_nat p) ss)).
  { unfold Py.len. rewrite length_fmap.
    pose proof (length_chunks (Z.to_nat p) ss HP) as E.
    rewrite Z2Nat.id in E by lia. by rewrite <- E, Nat2Z.id. }
  rewrite Hn in Hf. destruct fuel as [|fuel]; [lia|].
  rewrite drain_Created, Hres in Hd.
  rewrite run_loop_serve in Hd by (rewrite ?drop_0; lia). rewrite drop_0 in Hd.
  destruct (serve _ _ _) as [[[pages' fault] sent] w] eqn:E.
  injection Hd as <- <- <- <-.
  apply serve_sent in E as (E1 & E2 & E3).
  assert (Hq : queries (t0 ++ (EGetRecords c <$> sent)) = sent).
  { unfold queries. rewrite omap_app. fold (queries t0).
    rewrite (queries_no_fetch t0 Hnf). cbn [app].
    clear. induction sent as [|q sent IH]; [done|].
    rewrite fmap_cons. cbn [omap list_omap query_of]. by rewrite IH. }
  rewrite Hq. destruct fault as [d|]; cbn [ending].
  - split; [right; by exists d|]. split; [done|]. split; [|done].
    by rewrite E2.
  - split; [by left|]. split; [done|]. split; [|intros _; by apply E3].
    by rewrite E2.
Qed.


(** ** The client and the calls *)

Lemma prefix_Forall {A} (P : A → Prop) (l k : list A) :
  l `prefix_of` k → Forall P k → Forall P l.
Proof. intros [m ->] H. by apply Forall_app in H as [? _]. Qed.

(** The trace of the loop holds fetches through its client only. *)
Lemma run_loop_events (c : Client) (ss : list string) (p : Z) (fuel : nat)
    (st st' : Store) pages fin (t : list Event) :
  1 ≤ p →
  run_loop fuel c (Some <$> ss) 0 p st = (pages, fin, t, st') →
  Forall (λ e, ∃ q, e = EGetRecords c q) t.
Proof.
  intros Hp E.
  destruct (run_loop_any c ss p Hp fuel 0 st _ _ _ _ ltac:(lia) E) as (Hpre & _).
  eapply prefix_Forall; [exact Hpre|].
  apply Forall_fmap, Forall_forall. intros ch _. by eexists.
Qed.

(** X1. A consumption with a valid [page_size] binds the client exactly
    once, first of all, at the address made of the object's instance and of
    the table, over the object's transport; everything after it in the
    trace is a SOAP call, however many pages follow. *)
Theorem client_bound_once tb qp ids (p : Z) (st st' : Store) (fuel : nat)
    pages fin (t : list Event) :
  1 ≤ p ≤ 250 →
  drain (S fuel) (run_query tb qp ids p) st = (pages, fin, t, st') →
  ∃ rest,
    t = EWsdl (wsdl_url (instance (self st)) tb) (transport (self st)) :: rest
    ∧ Forall (λ e, is_call e = true) rest.
Proof.
  intros Hp. rewrite drain_Created.
  destruct (resolve tb qp ids p st) as [[r t0] st0] eqn:Hres.
  pose proof (resolve_cases _ _ _ _ _ _ _ _ Hres) as Hc. cbn zeta in Hc.
  destruct Hc as [[Hn _]|[_ Ht0]]; [done|].
  assert (H0 : ∃ rest0,
    t0 = EWsdl (wsdl_url (instance (self st)) tb) (transport (self st)) :: rest0
    ∧ Forall (λ e, is_call e = true) rest0).
  { destruct Ht0 as [->|(kw & _ & _ & ->)]; eexists; (split; [done|]);
      by repeat constructor. }
  destruct H0 as (rest0 & -> & Hrest0).
  destruct r as [e|[c pool]].
  - intros [= _ _ <- _]. by exists rest0.
  - pose proof Hres as (_ & _ & Hc)%resolve_inv.
    destruct (Hc c pool eq_refl) as (_ & _ & [ss ->]%strings_of). clear Hc.
    destruct (run_loop (S fuel) c (Some <$> ss) 0 p st0)
      as [[[pages' fin'] t1] st1] eqn:E.
    intros [= _ _ <- _]. exists (rest0 ++ t1). split; [done|].
    apply Forall_app. split; [done|].
    apply run_loop_events in E; [|lia].
    eapply Forall_impl; [exact E|]. by intros e [q ->].
Qed.

(** X2. On an object built by [__init__ i u pw], every event of every
    consumption of [run_query tb ...] is addressed to table [tb] of
    instance [i] and goes over a session that carries [u] and [pw]. *)
Theorem calls_through_constructed_client (i u pw : string) tb qp ids (p : Z)
    (st st' : Store) (fuel : nat) pages fin (t : list Event) :
  self st = __init__ i u pw →
  drain fuel (run_query tb qp ids p) st = (pages, fin, t, st') →
  Forall (through i u pw tb) t.
Proof.
  intros Hs. destruct fuel as [|fuel]; [by intros [= _ _ <- _]|].
  rewrite drain_Created.
  destruct (resolve tb qp ids p st) as [[r t0] st0] eqn:Hres.
  pose proof (resolve_cases _ _ _ _ _ _ _ _ Hres) as Hc. cbn zeta in Hc.
  assert (H0 : Forall (through i u pw tb) t0).
  { destruct Hc as [(_ & -> & _)|[_ [->|(kw & _ & _ & ->)]]];
      repeat constructor; by rewrite Hs. }
  destruct r as [e|[c pool]].
  - by intros [= _ _ <- _].
  - pose proof Hres as (_ & _ & Hc')%resolve_inv.
    destruct (Hc' c pool eq_refl) as (Hp & -> & [ss ->]%strings_of). clear Hc'.
    destruct (run_loop (S fuel) _ (Some <$> ss) 0 p st0)
      as [[[pages' fin'] t1] st1] eqn:E.
    intros [= _ _ <- _]. apply Forall_app. split; [done|].
    apply run_loop_events in E; [|lia].
    eapply Forall_impl; [exact E|]. intros e [q ->]. cbn. by rewrite Hs.
Qed.

(** ** Failures of the resolution *)

(** X3. When the client cannot be bound, the first pull raises the binding
    error whatever the arguments, with no SOAP call, and the generator is
    finished. *)
Theorem binding_failure tb qp ids (p : Z) (st : Store) d w :
  1 ≤ p ≤ 250 →
  CachingClient (wsdl_url (instance (self st)) tb) (transport (self st)) (world st)
    = (inl d, w) →
  next (run_query tb qp ids p) st
  = (Raise (WsdlError d), Finished,
     [EWsdl (wsdl_url (instance (self st)) tb) (transport (self st))],
     {| self := self st; world := w |}).
Proof.
  intros Hp Hw. apply next_Created_raise.
  unfold resolve. rewrite range_check by done.
  unfold bind. rewrite client_run. cbn zeta. by rewrite Hw.
Qed.

(** The lookup up to the answer of [getKeys]. *)
Lemma resolve_getKeys tb kw (p : Z) (st : Store) u w1 :
  1 ≤ p ≤ 250 →
  CachingClient (wsdl_url (instance (self st)) tb) (transport (self st)) (world st)
    = (inr u, w1) →
  resolve tb (Some kw) None p st =
    let c := bound_client (self st) tb in
    let t := [EWsdl (wsdl_url (instance (self st)) tb) (transport (self st));
              EGetKeys c kw] in
    match getKeys c kw w1 with
    | (inl d, w2) => (inl (ServiceError d), t, {| self := self st; world := w2 |})
    | (inr resp, w2) =>
        (match Py.int (count resp) with
         | inl e => inl e
         | inr n =>
             if n =? 0 then inr (c, [])
             else match sys_id resp with
                  | [] => inl IndexError
                  | s0 :: _ => inr (c, Some <$> Py.split "," s0)
                  end
         end, t, {| self := self st; world := w2 |})
    end.
Proof.
  intros Hp Hw. unfold resolve. rewrite range_check by done.
  unfold bind. rewrite client_run. cbn zeta. rewrite Hw.
  unfold remote, lift, ret, raise. cbn [world self].
  destruct (getKeys _ _ _) as [[d|resp] w2]; [done|].
  destruct (Py.int (count resp)) as [e|n]; [done|].
  destruct (n =? 0); [done|]. by destruct (sys_id resp).
Qed.

(** X4. When [getKeys] fails, the first pull raises the remote's error
    after that one call; nothing is fetched and the lookup is not tried
    again. *)
Theorem lookup_failure tb kw (p : Z) (st : Store) u w1 d w2 :
  1 ≤ p ≤ 250 →
  CachingClient (wsdl_url (instance (self st)) tb) (transport (self st)) (world st)
    = (inr u, w1) →
  getKeys (bound_client (self st) tb) kw w1 = (inl d, w2) →
  next (run_query tb (Some kw) None p) st
  = (Raise (ServiceError d), Finished,
     [EWsdl (wsdl_url (instance (self st)) tb) (transport (self st));
      EGetKeys (bound_client (self st) tb) kw],
     {| self := self st; world := w2 |}).
Proof.
  intros Hp Hw Hk. apply next_Created_raise.
  rewrite (resolve_getKeys _ _ _ _ u w1 Hp Hw). cbn zeta. by rewrite Hk.
Qed.

Lemma int_error (s : string) (e : exn) : Py.int s = inl e → e = ValueError.
Proof.
  unfold Py.int. destruct (Py.transform s) as [t|]; [|by intros [= <-]].
  cbv zeta.
  match goal with |- match ?x with _ => _ end = _ → _ => destruct x end;
    [|by intros [= <-]].
  destruct (_ <=? _)%nat; [done|]. by intros [= <-].
Qed.

(** X5. When the count of the [getKeys] answer is not an integer literal,
    the first pull raises [ValueError] after the lookup, and nothing is
    fetched. *)
Theorem count_not_an_integer tb kw (p : Z) (st : Store) u w1 resp w2 e :
  1 ≤ p ≤ 250 →
  CachingClient (wsdl_url (instance (self st)) tb) (transport (self st)) (world st)
    = (inr u, w1) →
  getKeys (bound_client (self st) tb) kw w1 = (inr resp, w2) →
  Py.int (count resp) = inl e →
  next (run_query tb (Some kw) None p) st
  = (Raise ValueError, Finished,
     [EWsdl (wsdl_url (instance (self st)) tb) (transport (self st));
      EGetKeys (bound_client (self st) tb) kw],
     {| self := self st; world := w2 |}).
Proof.
  intros Hp Hw Hk Hn. apply next_Created_raise.
  pose proof (int_error _ _ Hn) as ->.
  rewrite (resolve_getKeys _ _ _ _ u w1 Hp Hw). cbn zeta. by rewrite Hk, Hn.
Qed.

(** X6. When the count is not zero but the answer holds no identifier
    string, the first pull raises [IndexError] after the lookup, and nothing
    is fetched. *)
Theorem identifiers_missing tb kw (p : Z) (st : Store) u w1 resp w2 n :
  1 ≤ p ≤ 250 →
  CachingClient (wsdl_url (instance (self st)) tb) (transport (self st)) (world st)
    = (inr u, w1) →
  getKeys (bound_client (self st) tb) kw w1 = (inr resp, w2) →
  Py.int (count resp) = inr n → n ≠ 0 →
  sys_id resp = [] →
  next (run_query tb (Some kw) None p) st
  = (Raise IndexError, Finished,
     [EWsdl (wsdl_url (instance (self st)) tb) (transport (self st));
      EGetKeys (bound_client (self st) tb) kw],
     {| self := self st; world := w2 |}).
Proof.
  intros Hp Hw Hk Hn Hn0 Hs. apply next_Created_raise.
  rewrite (resolve_getKeys _ _ _ _ u w1 Hp Hw). cbn zeta. rewrite Hk, Hn, Hs.
  by destruct (Z.eqb_spec n 0).
Qed.

(** X7. A count other than zero is not looked at any further: whatever its
    value and whatever follows the first identifier string, the first pull
    sends one fetch, for the first [page_size] fields of that string, even
    when the string is empty. *)
Theorem nonzero_count_fetches tb kw (p : Z) (st : Store) u w1 resp w2 n s0 rest :
  1 ≤ p ≤ 250 →
  CachingClient (wsdl_url (instance (self st)) tb) (transport (self st)) (world st)
    = (inr u, w1) →
  getKeys (bound_client (self st) tb) kw w1 = (inr resp, w2) →
  Py.int (count resp) = inr n → n ≠ 0 →
  sys_id resp = s0 :: rest →
  ∃ o g w3,
    next (run_query tb (Some kw) None p) st
    = (o, g,
       [EWsdl (wsdl_url (instance (self st)) tb) (transport (self st));
        EGetKeys (bound_client (self st) tb) kw;
        EGetRecords (bound_client (self st) tb)
          ("sys_idIN" +:+ Py.join_str "," (take (Z.to_nat p) (Py.split "," s0)))],
       {| self := self st; world := w3 |})
    ∧ o ≠ StopIteration
    ∧ take (Z.to_nat p) (Py.split "," s0) ≠ [].
Proof.
  intros Hp Hw Hk Hn Hn0 Hs.
  assert (Hres := resolve_getKeys tb kw p st u w1 Hp Hw).
  cbn zeta in Hres. rewrite Hk, Hn, Hs in Hres.
  destruct (Z.eqb_spec n 0) as [?|_]; [done|].
  pose proof (split_nonempty "," s0) as Hne.
  assert (Hlen : 0 < Z.of_nat (length (Py.split "," s0))).
  { destruct (Py.split "," s0); [done|simpl; lia]. }
  unfold next, run_query. cbn [resume]. unfold bind. rewrite Hres. cbn [fst snd].
  rewrite paging_fetch by lia. cbn zeta. rewrite drop_0. cbn [world self].
  unfold fetch_of.
  destruct (getRecords _ _ _) as [[d|page] w3]; eexists _, _, w3;
    (split; [reflexivity|]); (split; [done|]);
    destruct (Py.split "," s0); try done; destruct (Z.to_nat p) eqn:E; (lia || done).
Qed.


(** ** Supplied identifiers: the empty pool and the size of the pool *)

Lemma to_list_empty (X : gset (option string)) :
  (∀ x, x ∉ X) → Py.to_list X = [].
Proof.
  intros H. destruct (Py.to_list X) as [|y ys] eqn:E; [done|].
  exfalso. apply (H y). apply Py.to_list_elem. rewrite E. by left.
Qed.

(** X10. With caller-supplied identifiers that are all [None] (or none at
    all) the sequence is empty and, the client once bound, nothing is asked
    of the remote side; with at least one identifier the first pull sends a
    fetch. *)
Theorem nothing_to_fetch tb qp (l : list (option string)) (p : Z) (st : Store) u w :
  1 ≤ p ≤ 250 →
  CachingClient (wsdl_url (instance (self st)) tb) (transport (self st)) (world st)
    = (inr u, w) →
  ((∀ x, x ∈ l → x = None) →
   ∀ fuel, drain (S fuel) (run_query tb qp (Some l) p) st
           = ([], Some StopIteration,
              [EWsdl (wsdl_url (instance (self st)) tb) (transport (self st))],
              {| self := self st; world := w |}))
  ∧ (∀ s, Some s ∈ l →
     ∃ o g q st',
       next (run_query tb qp (Some l) p) st
       = (o, g,
          [EWsdl (wsdl_url (instance (self st)) tb) (transport (self st));
           EGetRecords (bound_client (self st) tb) q], st')
       ∧ o ≠ StopIteration).
Proof.
  intros Hp Hw. split.
  - intros Hl fuel. rewrite drain_Created, (resolve_given _ _ _ _ _ u w Hp Hw).
    rewrite to_list_empty by set_solver.
    cbn [run_loop]. by rewrite paging_done.
  - intros s Hs.
    assert (Hpool : Some s ∈ Py.to_list (list_to_set l ∖ {[None]})).
    { apply Py.to_list_elem. set_solver. }
    destruct (strings_of (Py.to_list (list_to_set l ∖ {[None]}))) as [ss Hss].
    { rewrite Py.to_list_elem. set_solver. }
    rewrite Hss in Hpool.
    assert (Hlen : 0 < Z.of_nat (length ss)).
    { destruct ss; [by apply elem_of_nil in Hpool|simpl; lia]. }
    unfold next, run_query. cbn [resume]. unfold bind.
    rewrite (resolve_given _ _ _ _ _ u w Hp Hw), Hss. cbn [fst snd].
    rewrite paging_fetch by lia. cbn zeta. unfold fetch_of.
    destruct (getRecords _ _ _) as [[d|page] w3]; by eexists _, _, _, _.
Qed.

(** X12. With caller-supplied identifiers the pool is never longer than
    the input, so no more pages are fetched than the input has chunks; an
    input without [None] and without duplicates is kept whole, up to
    order. *)
Theorem pool_no_larger tb qp (l : list (option string)) (p : Z) (st st' : Store)
    c pool (t : list Event) :
  resolve tb qp (Some l) p st = (inr (c, pool), t, st') →
  (length pool ≤ length l)%nat
  ∧ page_count (Py.len pool) p ≤ page_count (Py.len l) p
  ∧ (NoDup l → None ∉ l → pool ≡ₚ l).
Proof.
  intros Hres.
  pose proof Hres as (_ & _ & Hc)%resolve_inv.
  destruct (Hc c pool eq_refl) as (Hp & _ & _). clear Hc.
  apply resolve_given_inv in Hres as ->.
  assert (Hmem : ∀ x, x ∈ Py.to_list (list_to_set l ∖ {[None]})
                      ↔ x ∈ l ∧ x ≠ None).
  { intros x. rewrite Py.to_list_elem. set_solver. }
  assert (Hlen : (length (Py.to_list (list_to_set l ∖ {[None]})) ≤ length l)%nat).
  { apply submseteq_length, NoDup_submseteq; [apply Py.to_list_NoDup|].
    intros x Hx. by apply Hmem in Hx as [? _]. }
  split; [done|]. split.
  - unfold page_count, Py.len. apply Z.div_le_mono; lia.
  - intros Hnd Hnone. apply NoDup_Permutation; [apply Py.to_list_NoDup|done|].
    intros x. rewrite Hmem. split; [by intros [? _]|].
    intros Hx. split; [done|]. by intros ->.
Qed.

(** ** The lookup: the identifier string sent back *)

(** X11. With identifiers omitted, a count other than zero and a remote
    side that answers, the sequence ends normally, and the identifier
    lists of its fetches, put one after the other with commas, spell the
    string [getKeys] returned: it is sent back whole and in order, cut
    into pages. *)
Theorem lookup_string_sent_back tb kw (p : Z) (st : Store) u w1 resp w2 n s0 rest :
  1 ≤ p ≤ 250 →
  CachingClient (wsdl_url (instance (self st)) tb) (transport (self st)) (world st)
    = (inr u, w1) →
  getKeys (bound_client (self st) tb) kw w1 = (inr resp, w2) →
  Py.int (count resp) = inr n → n ≠ 0 →
  sys_id resp = s0 :: rest →
  fetch_ok →
  ∃ pages t st' lists,
    drain (S (length lists)) (run_query tb (Some kw) None p) st
    = (pages, Some StopIteration, t, st')
    ∧ queries t = (λ x, "sys_idIN" +:+ x) <$> lists
    ∧ length pages = length lists
    ∧ Py.join_str "," lists = s0.
Proof.
  intros Hp Hw Hk Hn Hn0 Hs Hok.
  assert (Hres := resolve_getKeys tb kw p st u w1 Hp Hw).
  cbn zeta in Hres. rewrite Hk, Hn, Hs in Hres.
  destruct (Z.eqb_spec n 0) as [?|_]; [done|].
  set (ss := Py.split "," s0) in *.
  set (cs := chunks (Z.to_nat p) ss).
  destruct (run_loop_ok (bound_client (self st) tb) ss p ltac:(lia) Hok
              (S (length cs)) 0 {| self := self st; world := w2 |} ltac:(done))
    as (pages & st' & Hrun & Hlen & _).
  { rewrite drop_0. fold cs. lia. }
  rewrite drop_0 in Hrun, Hlen. fold cs in Hrun, Hlen.
  exists pages; eexists _, st', (Py.join_str "," <$> cs).
  rewrite length_fmap. split; [|split; [|split]].
  - rewrite drain_Created, Hres, Hrun. reflexivity.
  - unfold queries. rewrite omap_app. cbn [omap list_omap query_of app].
    fold (queries (fetch_of (bound_client (self st) tb) <$> cs)).
    rewrite queries_fetch_of. by rewrite <- list_fmap_compose.
  - done.
  - unfold cs. rewrite join_chunks by lia. apply join_split.
Qed.

(** ** The generator wherever it stands *)

Lemma paging_yield_bound (c : Client) (ids : list (option string)) (start p : Z)
    (st st' : Store) (page : Page) (g : generator) (t : list Event) :
  paging c ids start p st = (inr (Some (page, g)), t, st') → start < Py.len ids.
Proof.
  unfold paging. destruct (Z.ltb_spec start (Py.len ids)); [done|].
  by intros [=].
Qed.

Lemma next_well_formed (s : SNSoap) tb (p : Z) (g g' : generator)
    (st st' : Store) o (t : list Event) :
  well_formed s tb p g → self st = s →
  next g st = (o, g', t, st') →
  well_formed s tb p g' ∧ self st' = s.
Proof.
  intros Hg Hs E. pose proof E as (Hself & _)%next_inv.
  split; [|congruence]. revert E. unfold next.
  destruct g as [tb' qp ids p'|c ids start p'|]; cbn [resume].
  - destruct Hg as [-> ->]. unfold bind.
    destruct (resolve tb qp ids p st) as [[[e|[c pool]] t0] st0] eqn:Hres;
      [by intros [= _ <- _ _]|].
    apply resolve_inv in Hres as (_ & _ & Hc).
    destruct (Hc c pool eq_refl) as (Hp & -> & Hnone). clear Hc. cbn [fst snd].
    destruct (paging _ pool 0 p st0) as [[[e|[[page g0]|]] t1] st1] eqn:E';
      [by intros [= _ <- _ _]| |by intros [= _ <- _ _]].
    pose proof (paging_yield_bound _ _ _ _ _ _ _ _ _ E') as Hb.
    apply paging_yield in E' as ->. intros [= _ <- _ _]. cbn.
    rewrite Hs. do 4 (split; [done|]). split; [by exists 0%nat|lia].
  - destruct Hg as (-> & Hp & -> & Hnone & [j Hj] & Hb).
    destruct (paging _ ids (start + p) p st) as [[[e|[[page g0]|]] t1] st1] eqn:E';
      [by intros [= _ <- _ _]| |by intros [= _ <- _ _]].
    pose proof (paging_yield_bound _ _ _ _ _ _ _ _ _ E') as Hb'.
    apply paging_yield in E' as ->. intros [= _ <- _ _]. cbn.
    do 4 (split; [done|]). split; [exists (S j); lia|lia].
  - by intros [= _ <- _ _].
Qed.

(** X13. Wherever a generator of [run_query table ... page_size] stands
    after any number of pulls, its locals are in order: when suspended, its
    page size is the one of the call and lies in [1,250], its client is the
    one bound for the table, its list holds no [None], and [start] is a
    multiple of the page size inside the list. *)
Theorem generator_well_formed (k : nat) tb qp ids (p : Z) (st st' : Store)
    os (g : generator) (t : list Event) :
  pulls k (run_query tb qp ids p) st = (os, g, t, st') →
  well_formed (self st) tb p g.
Proof.
  assert (H : ∀ k g0 st0 os g t st',
    well_formed (self st) tb p g0 → self st0 = self st →
    pulls k g0 st0 = (os, g, t, st') → well_formed (self st) tb p g).
  { clear. induction k as [|k IH]; intros g0 st0 os g t st' Hg Hs.
    - by intros [= _ <- _ _].
    - cbn [pulls].
      destruct (next g0 st0) as [[[o g1] t1] st1] eqn:E1.
      destruct (pulls k g1 st1) as [[[os' g2] t2] st2] eqn:E2.
      intros [= _ <- _ _].
      destruct (next_well_formed _ _ _ _ _ _ _ _ _ Hg Hs E1) as [Hg1 Hs1].
      by eapply IH. }
  intros E. eapply H; [|reflexivity|exact E]. done.
Qed.

End Further.

(** ** The further properties on the scripted remote sides *)
Section ScriptedFurther.
#[local] Existing Instance Mock.zeep.
#[local] Existing Instance elements_order.

Lemma split_join_free_witness :
  Py.split "," (Py.join_str "," ["a"; "b c"; ""]) = ["a"; "b c"; ""].
Proof.
  apply split_join_free; [done|]. repeat constructor.
Defined.

Lemma client_bound_once_witness :
  ∃ pages fin t st' rest,
    drain 4 (run_query "incident" None (Some (Mock.idents 5)) 2)
      (Mock.store Mock.no_keys) = (pages, fin, t, st')
    ∧ t = EWsdl "https://dev.service-now.com/incident.do?WSDL" (transport Mock.sn)
          :: rest
    ∧ length rest = 3%nat.
Proof.
  destruct (drain 4 (run_query "incident" None (Some (Mock.idents 5)) 2)
              (Mock.store Mock.no_keys)) as [[[pages fin] t] st'] eqn:E.
  destruct (client_bound_once "incident" None (Some (Mock.idents 5)) 2
              (Mock.store Mock.no_keys) st' 3 pages fin t ltac:(lia) E)
    as (rest & Ht & _).
  exists pages, fin, t, st', rest. split; [done|]. split; [exact Ht|].
  vm_compute in E. injection E as _ _ <- _. by injection Ht as <-.
Defined.

Lemma calls_through_constructed_client_witness :
  ∃ pages fin t st',
    drain 4 (run_query "incident" (Some Mock.no_filter) None 1)
      (Mock.store Mock.xy) = (pages, fin, t, st')
    ∧ length t = 4%nat
    ∧ Forall (through "dev" "user" "secret" "incident") t.
Proof.
  destruct (drain 4 (run_query "incident" (Some Mock.no_filter) None 1)
              (Mock.store Mock.xy)) as [[[pages fin] t] st'] eqn:E.
  exists pages, fin, t, st'. split; [done|]. split.
  - vm_compute in E. by injection E as _ _ <- _.
  - exact (calls_through_constructed_client "dev" "user" "secret" "incident"
             (Some Mock.no_filter) None 1 (Mock.store Mock.xy) st' 4 pages fin t
             eq_refl E).
Defined.

Lemma nothing_to_fetch_witness :
  drain 3 (run_query "incident" None (Some [None; None]) 250)
    (Mock.store Mock.xy)
  = ([], Some StopIteration,
     [EWsdl "https://dev.service-now.com/incident.do?WSDL" (transport Mock.sn)],
     Mock.store Mock.xy).
Proof.
  destruct (nothing_to_fetch "incident" None [None; None] 250
              (Mock.store Mock.xy) tt (Mock.answering Mock.xy))
    as [H _]; [lia|reflexivity|].
  apply (H ltac:(set_solver) 2%nat).
Defined.

Lemma pool_no_larger_witness :
  (length [Some "a"] ≤ length [Some "a"; None; Some "a"])%nat
  ∧ page_count (Py.len [Some "a"]) 1
    ≤ page_count (Py.len [Some "a"; None; Some "a"]) 1.
Proof.
  destruct (pool_no_larger "incident" None [Some "a"; None; Some "a"] 1
              (Mock.store Mock.xy) (Mock.store Mock.xy) Mock.incident
              [Some "a"]
              [EWsdl "https://dev.service-now.com/incident.do?WSDL"
                 (transport Mock.sn)])
    as (H1 & H2 & _); [vm_compute; reflexivity|].
  by split.
Defined.

Lemma lookup_string_sent_back_witness :
  ∃ pages t st' lists,
    drain (S (length lists)) (run_query "incident" (Some Mock.no_filter) None 2)
      (Mock.store {| count := "3"; sys_id := ["a,b,c"] |})
    = (pages, Some StopIteration, t, st')
    ∧ queries t = (λ x, "sys_idIN" +:+ x) <$> lists
    ∧ length pages = length lists
    ∧ Py.join_str "," lists = "a,b,c".
Proof.
  apply (lookup_string_sent_back "incident" Mock.no_filter 2
           (Mock.store {| count := "3"; sys_id := ["a,b,c"] |}) tt
           (Mock.answering {| count := "3"; sys_id := ["a,b,c"] |})
           {| count := "3"; sys_id := ["a,b,c"] |}
           (Mock.answering {| count := "3"; sys_id := ["a,b,c"] |})
           3 "a,b,c" []);
    try reflexivity; [lia|lia|exact mock_fetch_ok].
Defined.

Lemma generator_well_formed_witness :
  ∃ os c ids t st',
    pulls 2 (run_query "incident" None (Some (Mock.idents 5)) 2)
      (Mock.store Mock.no_keys) = (os, Suspended c ids 2 2, t, st')
    ∧ well_formed Mock.sn "incident" 2 (Suspended c ids 2 2).
Proof.
  destruct (pulls 2 (run_query "incident" None (Some (Mock.idents 5)) 2)
              (Mock.store Mock.no_keys)) as [[[os g] t] st'] eqn:E.
  pose proof (generator_well_formed 2 "incident" None (Some (Mock.idents 5)) 2
                (Mock.store Mock.no_keys) st' os g t E) as H.
  vm_compute in E. injection E as <- <- <- <-.
  eexists _, _, _, _, _. split; [reflexivity|exact H].
Defined.

End ScriptedFurther.

Section Failing.
#[local] Existing Instance Faulty.zeep.
#[local] Existing Instance elements_order.

Lemma binding_failure_witness :
  ∃ t st',
    next (run_query "incident" None (Some [Some "a"]) 250)
      (Faulty.store (Some "unreachable") (inl "") None)
    = (Raise (WsdlError "unreachable"), Finished, t, st')
    ∧ filter (λ e, is_call e = true) t = [].
Proof.
  eexists _, _. split.
  - apply (binding_failure "incident" None (Some [Some "a"]) 250
             (Faulty.store (Some "unreachable") (inl "") None));
      [lia|reflexivity].
  - reflexivity.
Defined.

Lemma lookup_failure_witness :
  ∃ t st',
    next (run_query "incident" (Some Faulty.no_filter) None 250)
      (Faulty.store None (inl "denied") None)
    = (Raise (ServiceError "denied"), Finished, t, st')
    ∧ length (filter (λ e, is_call e = true) t) = 1%nat.
Proof.
  eexists _, _. split.
  - apply (lookup_failure "incident" Faulty.no_filter 250
             (Faulty.store None (inl "denied") None) tt
             (world (Faulty.store None (inl "denied") None)));
      [lia|reflexivity|reflexivity].
  - reflexivity.
Defined.

Lemma count_not_an_integer_witness :
  ∃ t st',
    next (run_query "incident" (Some Faulty.no_filter) None 250)
      (Faulty.store None (inr {| count := String (ascii_of_nat 28) "0"; sys_id := ["a"] |}) None)
    = (Raise ValueError, Finished, t, st')
    ∧ filter (λ e, is_getRecords e = true) t = [].
Proof.
  eexists _, _. split.
  - apply (count_not_an_integer "incident" Faulty.no_filter 250
             (Faulty.store None (inr {| count := String (ascii_of_nat 28) "0"; sys_id := ["a"] |}) None)
             tt
             (world (Faulty.store None
                       (inr {| count := String (ascii_of_nat 28) "0"; sys_id := ["a"] |}) None))
             {| count := String (ascii_of_nat 28) "0"; sys_id := ["a"] |}
             (world (Faulty.store None
                       (inr {| count := String (ascii_of_nat 28) "0"; sys_id := ["a"] |}) None))
             ValueError);
      [lia|reflexivity|reflexivity|reflexivity].
  - reflexivity.
Defined.

Lemma identifiers_missing_witness :
  ∃ t st',
    next (run_query "incident" (Some Faulty.no_filter) None 250)
      (Faulty.store None (inr {| count := "3"; sys_id := [] |}) None)
    = (Raise IndexError, Finished, t, st')
    ∧ filter (λ e, is_getRecords e = true) t = [].
Proof.
  eexists _, _. split.
  - apply (identifiers_missing "incident" Faulty.no_filter 250
             (Faulty.store None (inr {| count := "3"; sys_id := [] |}) None)
             tt
             (world (Faulty.store None (inr {| count := "3"; sys_id := [] |}) None))
             {| count := "3"; sys_id := [] |}
             (world (Faulty.store None (inr {| count := "3"; sys_id := [] |}) None))
             3);
      [lia|reflexivity|reflexivity|reflexivity|lia|reflexivity].
  - reflexivity.
Defined.

Lemma nonzero_count_fetches_witness :
  ∃ o g t st',
    next (run_query "incident" (Some Faulty.no_filter) None 250)
      (Faulty.store None (inr {| count := "-7"; sys_id := [""; "zz"] |}) None)
    = (o, g, t, st')
    ∧ queries t = ["sys_idIN"].
Proof.
  destruct (nonzero_count_fetches "incident" Faulty.no_filter 250
              (Faulty.store None
                 (inr {| count := "-7"; sys_id := [""; "zz"] |}) None)
              tt
              (world (Faulty.store None
                        (inr {| count := "-7"; sys_id := [""; "zz"] |}) None))
              {| count := "-7"; sys_id := [""; "zz"] |}
              (world (Faulty.store None
                        (inr {| count := "-7"; sys_id := [""; "zz"] |}) None))
              (-7) "" ["zz"])
    as (o & g & w3 & E & _); [lia|reflexivity|reflexivity|reflexivity|lia|reflexivity|].
  eexists o, g, _, _. split; [exact E|]. reflexivity.
Defined.

Lemma paging_is_serving_witness :
  ∃ page t st',
    drain 4 (run_query "incident" None (Some (Mock.idents 5)) 2)
      (Faulty.store None (inl "") (Some 1%nat))
    = ([page], Some (Raise (ServiceError "fault")), t, st')
    ∧ length (queries t) = 2%nat.
Proof.
  destruct (paging_is_serving "incident" None (Some (Mock.idents 5)) 2
              (Faulty.store None (inl "") (Some 1%nat))
              (Faulty.store None (inl "") (Some 1%nat)) Faulty.incident
              (Py.to_list (list_to_set (Mock.idents 5) ∖ {[None]}))
              [EWsdl "https://dev.service-now.com/incident.do?WSDL"
                 (transport Faulty.sn)] 4)
    as (ss & Hpool & Hd); [vm_compute; reflexivity|].
  assert (Hss : Py.all_str (Py.to_list (list_to_set (Mock.idents 5) ∖ {[None]}))
                = Some ss) by (rewrite Hpool; apply all_str_Some).
  vm_compute in Hss. injection Hss as <-.
  cbn zeta in Hd. specialize (Hd ltac:(vm_compute; lia)).
  set (r := drain 4 _ _) in *. vm_compute in Hd.
  eexists _, _, _. split; [exact Hd|reflexivity].
Defined.

Lemma fetches_accounted_witness :
  ∃ pages fin t st',
    drain 4 (run_query "incident" None (Some (Mock.idents 5)) 2)
      (Faulty.store None (inl "") (Some 1%nat))
    = (pages, fin, t, st')
    ∧ fin = Some (Raise (ServiceError "fault"))
    ∧ length pages = 1%nat
    ∧ length (queries t) = 2%nat.
Proof.
  destruct (drain 4 (run_query "incident" None (Some (Mock.idents 5)) 2)
              (Faulty.store None (inl "") (Some 1%nat)))
    as [[[pages fin] t] st'] eqn:E.
  destruct (fetches_accounted "incident" None (Some (Mock.idents 5)) 2
              (Faulty.store None (inl "") (Some 1%nat))
              (Faulty.store None (inl "") (Some 1%nat)) st' Faulty.incident
              (Py.to_list (list_to_set (Mock.idents 5) ∖ {[None]}))
              [EWsdl "https://dev.service-now.com/incident.do?WSDL"
                 (transport Faulty.sn)] t 4 pages fin)
    as (ss & _ & _ & _ & Hlen & _);
    [vm_compute; reflexivity|vm_compute; lia|exact E|].
  cbn zeta in Hlen. vm_compute in E. injection E as <- <- <- <-.
  eexists _, _, _, _. split; [reflexivity|]. split; [reflexivity|].
  split; [reflexivity|]. exact Hlen.
Defined.

End Failing.
